(** * lab-infra: the declared configuration of the CDK application

    The repository is a CDK application: [bin/lab-infra.ts] builds three
    stacks ([lib/network-stack.ts], [lib/fargate-service-stack.ts],
    [lib/pipeline-stack.ts]) by calling constructors, static factories and
    methods of the external framework (aws-cdk-lib).

    The embedding keeps the program as it is written: a sequence of
    framework calls, run in a small monad that logs each call that
    completed and stops at the first call the framework rejects.  The
    framework itself is a parameter: which calls it accepts, given the
    calls it has already served, and which subnets the [ec2.Vpc] it
    builds exposes. *)

From stdpp Require Import base list strings gmap pretty.
From Stdlib Require Import ZArith Lia.

#[local] Set Warnings "-register-all".
#[local] Open Scope stdpp_scope.
#[local] Open Scope list_scope.

(** ** Values handed to the framework *)

Inductive value : Type :=
| VUndef
| VStr (s : string)
| VNum (n : Z)
| VBool (b : bool)
| VMember (name : string)
| VObj (fields : list (string * value))
| VArr (items : list value)
| VConstruct (path : list string)
| VNew (cls : string) (args : list value)
| VStatic (cls meth : string) (args : list value)
| VInvoke (recv : value) (meth : string) (args : list value)
| VGet (recv : value) (prop : string)
| VCat (parts : list value).

(** [obj.name] on an object literal; a missing property reads as
    [undefined]. *)
Fixpoint lookup_field (name : string) (fields : list (string * value)) : value :=
  match fields with
  | [] => VUndef
  | (k, v) :: rest => if String.eqb k name then v else lookup_field name rest
  end.

Definition field (name : string) (v : value) : value :=
  match v with
  | VObj fields => lookup_field name fields
  | _ => VUndef
  end.

(** ** Calls into the framework *)

Inductive call : Type :=
| Construct (cls : string) (scope : list string) (id : string) (props : value)
| New (cls : string) (args : list value)
| Static (cls meth : string) (args : list value)
| Invoke (recv : value) (meth : string) (args : list value).

(** What a completed call evaluates to.  A construct is known by its path
    in the construct tree (scope path followed by its id). *)
Definition result_of (c : call) : value :=
  match c with
  | Construct _ scope id _ => VConstruct (scope ++ [id])
  | New cls args => VNew cls args
  | Static cls meth args => VStatic cls meth args
  | Invoke recv meth args => VInvoke recv meth args
  end.

(** ** The framework, as far as this program observes it *)

Record Subnet := { subnetId : string; availabilityZone : string }.

(** [accepts served c]: whether the call [c] succeeds after the calls
    [served] have; a call that does not succeed throws. *)
Record Framework := {
  accepts : list call → call → bool;
  publicSubnets : list Subnet;
  isolatedSubnets : list Subnet
}.

(** ** The synthesis monad *)

Inductive failure : Type :=
| FrameworkThrew (c : call)
| Raised (msg : string).

Inductive outcome (A : Type) : Type :=
| Done (a : A)
| Failed (f : failure).
Arguments Done {A} a.
Arguments Failed {A} f.

(** A computation runs against a framework that has served the calls
    [served]; it yields its outcome and the calls it completed itself. *)
Definition Synth (A : Type) : Type := Framework → list call → outcome A * list call.

Definition synth_ret {A} (a : A) : Synth A := λ _ _, (Done a, []).

Definition synth_bind {A B} (m : Synth A) (k : A → Synth B) : Synth B :=
  λ fw served,
    match m fw served with
    | (Done a, t) => let '(r, t') := k a fw (served ++ t) in (r, t ++ t')
    | (Failed f, t) => (Failed f, t)
    end.

Definition fw_call (c : call) : Synth value :=
  λ fw served,
    if accepts fw served c then (Done (result_of c), [c])
    else (Failed (FrameworkThrew c), []).

(** [vpc.publicSubnets] and [vpc.isolatedSubnets]: property reads, answered
    by the framework. *)
Definition vpc_publicSubnets (vpc : value) : Synth (list Subnet) :=
  λ fw _, (Done (publicSubnets fw), []).
Definition vpc_isolatedSubnets (vpc : value) : Synth (list Subnet) :=
  λ fw _, (Done (isolatedSubnets fw), []).

Declare Scope synth_scope.
Delimit Scope synth_scope with synth.
Notation "x <- m ;; k" := (synth_bind m (λ x, k))
  (at level 100, m at next level, right associativity) : synth_scope.
Notation "m ;;; k" := (synth_bind m (λ _, k))
  (at level 100, right associativity) : synth_scope.
Local Open Scope synth_scope.

(** [arr.forEach((x, index) => body)]: the body sees each element with
    its position, counted from 0. *)
Fixpoint forEach {A} (l : list A) (body : A → nat → Synth unit) : Synth unit :=
  match l with
  | [] => synth_ret tt
  | x :: rest => body x 0%nat ;;; forEach rest (λ y index, body y (S index))
  end.

Definition construct (cls : string) (scope : list string) (id : string) (props : value)
  : Synth value := fw_call (Construct cls scope id props).
Definition new_ (cls : string) (args : list value) : Synth value :=
  fw_call (New cls args).
Definition static (cls meth : string) (args : list value) : Synth value :=
  fw_call (Static cls meth args).
Definition invoke (recv : value) (meth : string) (args : list value) : Synth value :=
  fw_call (Invoke recv meth args).

Definition path_of (v : value) : list string :=
  match v with
  | VConstruct p => p
  | _ => []
  end.

(** ** lib/network-stack.ts *)

Record NetworkStackObj := { ns_this : value; ns_vpc : value }.

(** The [new cdk.CfnOutput(this, ...)] of the two arrow functions handed to
    [forEach]; [here] is the path of the enclosing stack ([this]). *)
Definition publicSubnetOutput (here : list string) (subnet : Subnet) (index : nat) : call :=
  Construct "cdk.CfnOutput" here ("PublicSubnet" +:+ pretty (index + 1)%nat +:+ "Id") (VObj [
      ("value", VStr (subnetId subnet));
      ("description", VStr ("パブリックサブネット" +:+ pretty (index + 1)%nat +:+ "のID (AZ: "
                              +:+ availabilityZone subnet +:+ ")"));
      ("exportName", VStr ("LabInfra-PublicSubnet" +:+ pretty (index + 1)%nat +:+ "Id")) ]).

Definition isolatedSubnetOutput (here : list string) (subnet : Subnet) (index : nat) : call :=
  Construct "cdk.CfnOutput" here ("PrivateSubnet" +:+ pretty (index + 1)%nat +:+ "Id") (VObj [
      ("value", VStr (subnetId subnet));
      ("description", VStr ("プライベートサブネット" +:+ pretty (index + 1)%nat +:+ "のID (AZ: "
                              +:+ availabilityZone subnet +:+ ")"));
      ("exportName", VStr ("LabInfra-PrivateSubnet" +:+ pretty (index + 1)%nat +:+ "Id")) ]).

Definition NetworkStack (scope : list string) (id : string) (props : value)
  : Synth NetworkStackObj :=
  this <- construct "cdk.Stack" scope id props ;;
  let here := path_of this in
  vpc <- construct "ec2.Vpc" here "LabInfraVpc" (VObj [
      ("cidr", VStr "10.0.0.0/16");
      ("maxAzs", VNum 2);
      ("subnetConfiguration", VArr [
         VObj [ ("cidrMask", VNum 24);
                ("name", VStr "PublicSubnet");
                ("subnetType", VMember "ec2.SubnetType.PUBLIC") ];
         VObj [ ("cidrMask", VNum 24);
                ("name", VStr "PrivateSubnet");
                ("subnetType", VMember "ec2.SubnetType.PRIVATE_ISOLATED") ] ]);
      ("natGateways", VNum 0) ]) ;;
  construct "cdk.CfnOutput" here "VpcId" (VObj [
      ("value", VGet vpc "vpcId");
      ("description", VStr "作成されたVPCのID");
      ("exportName", VStr "LabInfra-VpcId") ]) ;;;
  construct "cdk.CfnOutput" here "VpcCidr" (VObj [
      ("value", VGet vpc "vpcCidrBlock");
      ("description", VStr "VPCのCIDRブロック");
      ("exportName", VStr "LabInfra-VpcCidr") ]) ;;;
  pubs <- vpc_publicSubnets vpc ;;
  forEach pubs (λ subnet index,
    fw_call (publicSubnetOutput here subnet index) ;;; synth_ret tt) ;;;
  isos <- vpc_isolatedSubnets vpc ;;
  forEach isos (λ subnet index,
    fw_call (isolatedSubnetOutput here subnet index) ;;; synth_ret tt) ;;;
  synth_ret {| ns_this := this; ns_vpc := vpc |}.

(** ** lib/fargate-service-stack.ts *)

Record FargateServiceStackObj := {
  fs_this : value; fs_cluster : value; fs_service : value
}.

Definition FargateServiceStack (scope : list string) (id : string) (props : value)
  : Synth FargateServiceStackObj :=
  this <- construct "cdk.Stack" scope id props ;;
  let here := path_of this in
  logGroup <- construct "logs.LogGroup" here "LabInfraLogGroup" (VObj [
      ("logGroupName", VStr "/aws/ecs/lab-infra");
      ("retention", VMember "logs.RetentionDays.ONE_WEEK");
      ("removalPolicy", VMember "cdk.RemovalPolicy.DESTROY") ]) ;;
  cluster <- construct "ecs.Cluster" here "LabInfraCluster" (VObj [
      ("clusterName", VStr "lab-infra-cluster");
      ("vpc", field "vpc" props);
      ("containerInsights", VBool false) ]) ;;
  execPrincipal <- new_ "iam.ServicePrincipal" [VStr "ecs-tasks.amazonaws.com"] ;;
  taskExecutionRole <- construct "iam.Role" here "LabInfraTaskExecutionRole" (VObj [
      ("roleName", VStr "LabInfraTaskExecutionRole");
      ("assumedBy", execPrincipal);
      ("description", VStr "ECS Fargate タスク実行用のIAMロール") ]) ;;
  execPolicy <- static "iam.ManagedPolicy" "fromAwsManagedPolicyName"
      [VStr "service-role/AmazonECSTaskExecutionRolePolicy"] ;;
  invoke taskExecutionRole "addManagedPolicy" [execPolicy] ;;;
  taskPrincipal <- new_ "iam.ServicePrincipal" [VStr "ecs-tasks.amazonaws.com"] ;;
  taskRole <- construct "iam.Role" here "LabInfraTaskRole" (VObj [
      ("roleName", VStr "LabInfraTaskRole");
      ("assumedBy", taskPrincipal);
      ("description", VStr "ECS Fargate タスク内のアプリケーション用のIAMロール") ]) ;;
  taskDefinition <- construct "ecs.FargateTaskDefinition" here "LabInfraTaskDefinition" (VObj [
      ("family", VStr "lab-infra-task");
      ("cpu", VNum 256);
      ("memoryLimitMiB", VNum 512);
      ("executionRole", taskExecutionRole);
      ("taskRole", taskRole) ]) ;;
  image <- static "ecs.ContainerImage" "fromRegistry" [VStr "amazon/amazon-ecs-sample"] ;;
  logging <- static "ecs.LogDrivers" "awsLogs" [VObj [
      ("streamPrefix", VStr "lab-infra");
      ("logGroup", logGroup) ]] ;;
  container <- invoke taskDefinition "addContainer" [VStr "LabInfraContainer"; VObj [
      ("containerName", VStr "lab-infra-container");
      ("image", image);
      ("memoryLimitMiB", VNum 512);
      ("essential", VBool true);
      ("logging", logging);
      ("environment", VObj [
         ("APP_NAME", VStr "LabInfra");
         ("ENVIRONMENT", VStr "development") ]) ]] ;;
  invoke container "addPortMappings" [VObj [
      ("containerPort", VNum 80);
      ("protocol", VMember "ecs.Protocol.TCP");
      ("name", VStr "http") ]] ;;;
  securityGroup <- construct "ec2.SecurityGroup" here "LabInfraSecurityGroup" (VObj [
      ("securityGroupName", VStr "lab-infra-fargate-sg");
      ("vpc", field "vpc" props);
      ("description", VStr "Lab Infra Fargate サービス用のセキュリティグループ");
      ("allowAllOutbound", VBool true) ]) ;;
  peer <- static "ec2.Peer" "anyIpv4" [] ;;
  port <- static "ec2.Port" "tcp" [VNum 80] ;;
  invoke securityGroup "addIngressRule" [peer; port; VStr "HTTP traffic from anywhere"] ;;;
  grace <- static "cdk.Duration" "seconds" [VNum 60] ;;
  service <- construct "ecs.FargateService" here "LabInfraService" (VObj [
      ("serviceName", VStr "lab-infra-service");
      ("cluster", cluster);
      ("taskDefinition", taskDefinition);
      ("desiredCount", VNum 1);
      ("vpcSubnets", VObj [ ("subnetType", VMember "ec2.SubnetType.PUBLIC") ]);
      ("securityGroups", VArr [securityGroup]);
      ("assignPublicIp", VBool true);
      ("platformVersion", VMember "ecs.FargatePlatformVersion.LATEST");
      ("maxHealthyPercent", VNum 200);
      ("minHealthyPercent", VNum 50);
      ("healthCheckGracePeriod", grace) ]) ;;
  construct "cdk.CfnOutput" here "ClusterName" (VObj [
      ("value", VGet cluster "clusterName");
      ("description", VStr "ECSクラスター名");
      ("exportName", VStr "LabInfra-ClusterName") ]) ;;;
  construct "cdk.CfnOutput" here "ClusterArn" (VObj [
      ("value", VGet cluster "clusterArn");
      ("description", VStr "ECSクラスターのARN");
      ("exportName", VStr "LabInfra-ClusterArn") ]) ;;;
  construct "cdk.CfnOutput" here "ServiceName" (VObj [
      ("value", VGet service "serviceName");
      ("description", VStr "Fargateサービス名");
      ("exportName", VStr "LabInfra-ServiceName") ]) ;;;
  construct "cdk.CfnOutput" here "ServiceArn" (VObj [
      ("value", VGet service "serviceArn");
      ("description", VStr "FargateサービスのARN");
      ("exportName", VStr "LabInfra-ServiceArn") ]) ;;;
  construct "cdk.CfnOutput" here "TaskDefinitionArn" (VObj [
      ("value", VGet taskDefinition "taskDefinitionArn");
      ("description", VStr "タスク定義のARN");
      ("exportName", VStr "LabInfra-TaskDefinitionArn") ]) ;;;
  construct "cdk.CfnOutput" here "LogGroupName" (VObj [
      ("value", VGet logGroup "logGroupName");
      ("description", VStr "CloudWatch Logsグループ名");
      ("exportName", VStr "LabInfra-LogGroupName") ]) ;;;
  synth_ret {| fs_this := this; fs_cluster := cluster; fs_service := service |}.

(** ** lib/pipeline-stack.ts

    (In the source tree at hand the text of this file follows that of
    [fargate-service-stack.ts], in the same file.) *)

Record PipelineStackObj := {
  ps_this : value; ps_pipeline : value; ps_sourceBucket : value
}.

(** The double quote character of the shell commands in the build spec. *)
Definition dquote : string := String (Ascii.ascii_of_nat 34) EmptyString.
Definition quoted (s : string) : string := dquote +:+ s +:+ dquote.

Definition buildSpecObject : value :=
  VObj [
    ("version", VStr "0.2");
    ("phases", VObj [
       ("install", VObj [
          ("runtime-versions", VObj [ ("nodejs", VStr "18") ]);
          ("commands", VArr [
             VStr ("echo " +:+ quoted "=== Installing dependencies ===");
             VStr "npm install -g aws-cdk@2.87.0";
             VStr "npm ci" ]) ]);
       ("pre_build", VObj [
          ("commands", VArr [
             VStr ("echo " +:+ quoted "=== Pre-build phase ===");
             VStr "node --version";
             VStr "npm --version";
             VStr "cdk --version";
             VStr ("echo " +:+ quoted "Current directory: $(pwd)");
             VStr "ls -la" ]) ]);
       ("build", VObj [
          ("commands", VArr [
             VStr ("echo " +:+ quoted "=== Build phase ===");
             VStr ("echo " +:+ quoted "Running CDK synth...");
             VStr "cdk synth --all";
             VStr ("echo " +:+ quoted "CDK synth completed successfully");
             VStr "ls -la cdk.out/" ]) ]);
       ("post_build", VObj [
          ("commands", VArr [
             VStr ("echo " +:+ quoted "=== Post-build phase ===");
             VStr ("echo " +:+ quoted "Build completed at $(date)") ]) ]) ]);
    ("artifacts", VObj [
       ("files", VArr [ VStr "**/*" ]);
       ("base-directory", VStr "cdk.out") ]);
    ("cache", VObj [ ("paths", VArr [ VStr "node_modules/**/*" ]) ]) ].

Definition PipelineStack (scope : list string) (id : string) (props : value)
  : Synth PipelineStackObj :=
  this <- construct "cdk.Stack" scope id props ;;
  let here := path_of this in
  sourceBucket <- construct "s3.Bucket" here "LabInfraSourceBucket" (VObj [
      ("bucketName", VCat [ VStr "lab-infra-source-"; VMember "cdk.Aws.ACCOUNT_ID";
                            VStr "-"; VMember "cdk.Aws.REGION" ]);
      ("versioned", VBool true);
      ("encryption", VMember "s3.BucketEncryption.S3_MANAGED");
      ("blockPublicAccess", VMember "s3.BlockPublicAccess.BLOCK_ALL");
      ("removalPolicy", VMember "cdk.RemovalPolicy.DESTROY");
      ("autoDeleteObjects", VBool true) ]) ;;
  expiration <- static "cdk.Duration" "days" [VNum 30] ;;
  artifactBucket <- construct "s3.Bucket" here "LabInfraArtifactBucket" (VObj [
      ("bucketName", VCat [ VStr "lab-infra-artifacts-"; VMember "cdk.Aws.ACCOUNT_ID";
                            VStr "-"; VMember "cdk.Aws.REGION" ]);
      ("versioned", VBool true);
      ("encryption", VMember "s3.BucketEncryption.S3_MANAGED");
      ("blockPublicAccess", VMember "s3.BlockPublicAccess.BLOCK_ALL");
      ("removalPolicy", VMember "cdk.RemovalPolicy.DESTROY");
      ("autoDeleteObjects", VBool true);
      ("lifecycleRules", VArr [
         VObj [ ("id", VStr "DeleteOldArtifacts");
                ("enabled", VBool true);
                ("expiration", expiration) ] ]) ]) ;;
  buildPrincipal <- new_ "iam.ServicePrincipal" [VStr "codebuild.amazonaws.com"] ;;
  codeBuildRole <- construct "iam.Role" here "LabInfraCodeBuildRole" (VObj [
      ("roleName", VStr "LabInfraCodeBuildRole");
      ("assumedBy", buildPrincipal);
      ("description", VStr "CDK ビルド用のCodeBuildサービスロール") ]) ;;
  logsStatement <- new_ "iam.PolicyStatement" [VObj [
      ("effect", VMember "iam.Effect.ALLOW");
      ("actions", VArr [ VStr "logs:CreateLogGroup"; VStr "logs:CreateLogStream";
                         VStr "logs:PutLogEvents" ]);
      ("resources", VArr [
         VCat [ VStr "arn:aws:logs:"; VMember "cdk.Aws.REGION"; VStr ":";
                VMember "cdk.Aws.ACCOUNT_ID"; VStr ":log-group:/aws/codebuild/*" ] ]) ]] ;;
  invoke codeBuildRole "addToPolicy" [logsStatement] ;;;
  s3Statement <- new_ "iam.PolicyStatement" [VObj [
      ("effect", VMember "iam.Effect.ALLOW");
      ("actions", VArr [ VStr "s3:GetObject"; VStr "s3:GetObjectVersion"; VStr "s3:PutObject" ]);
      ("resources", VArr [
         VCat [ VGet sourceBucket "bucketArn"; VStr "/*" ];
         VCat [ VGet artifactBucket "bucketArn"; VStr "/*" ] ]) ]] ;;
  invoke codeBuildRole "addToPolicy" [s3Statement] ;;;
  adminPolicy <- static "iam.ManagedPolicy" "fromAwsManagedPolicyName"
      [VStr "AdministratorAccess"] ;;
  invoke codeBuildRole "addManagedPolicy" [adminPolicy] ;;;
  timeout <- static "cdk.Duration" "minutes" [VNum 15] ;;
  buildSpec <- static "codebuild.BuildSpec" "fromObject" [buildSpecObject] ;;
  buildProject <- construct "codebuild.Project" here "LabInfraBuildProject" (VObj [
      ("projectName", VStr "lab-infra-build");
      ("description", VStr "Lab Infra CDK プロジェクトのビルド");
      ("environment", VObj [
         ("buildImage", VMember "codebuild.LinuxBuildImage.AMAZON_LINUX_2_5");
         ("computeType", VMember "codebuild.ComputeType.SMALL");
         ("privileged", VBool false) ]);
      ("role", codeBuildRole);
      ("timeout", timeout);
      ("buildSpec", buildSpec) ]) ;;
  pipelinePrincipal <- new_ "iam.ServicePrincipal" [VStr "codepipeline.amazonaws.com"] ;;
  pipelineRole <- construct "iam.Role" here "LabInfraPipelineRole" (VObj [
      ("roleName", VStr "LabInfraPipelineRole");
      ("assumedBy", pipelinePrincipal);
      ("description", VStr "CI/CDパイプライン用のサービスロール") ]) ;;
  bucketStatement <- new_ "iam.PolicyStatement" [VObj [
      ("effect", VMember "iam.Effect.ALLOW");
      ("actions", VArr [ VStr "s3:GetObject"; VStr "s3:GetObjectVersion";
                         VStr "s3:PutObject"; VStr "s3:GetBucketVersioning" ]);
      ("resources", VArr [
         VGet sourceBucket "bucketArn";
         VCat [ VGet sourceBucket "bucketArn"; VStr "/*" ];
         VGet artifactBucket "bucketArn";
         VCat [ VGet artifactBucket "bucketArn"; VStr "/*" ] ]) ]] ;;
  invoke pipelineRole "addToPolicy" [bucketStatement] ;;;
  buildStatement <- new_ "iam.PolicyStatement" [VObj [
      ("effect", VMember "iam.Effect.ALLOW");
      ("actions", VArr [ VStr "codebuild:BatchGetBuilds"; VStr "codebuild:StartBuild" ]);
      ("resources", VArr [ VGet buildProject "projectArn" ]) ]] ;;
  invoke pipelineRole "addToPolicy" [buildStatement] ;;;
  cfnStatement <- new_ "iam.PolicyStatement" [VObj [
      ("effect", VMember "iam.Effect.ALLOW");
      ("actions", VArr [
         VStr "cloudformation:CreateStack"; VStr "cloudformation:UpdateStack";
         VStr "cloudformation:DeleteStack"; VStr "cloudformation:DescribeStacks";
         VStr "cloudformation:DescribeStackEvents"; VStr "cloudformation:DescribeChangeSet";
         VStr "cloudformation:CreateChangeSet"; VStr "cloudformation:DeleteChangeSet";
         VStr "cloudformation:ExecuteChangeSet"; VStr "cloudformation:GetTemplate";
         VStr "cloudformation:ValidateTemplate"; VStr "iam:PassRole" ]);
      ("resources", VArr [ VStr "*" ]) ]] ;;
  invoke pipelineRole "addToPolicy" [cfnStatement] ;;;
  pipeline <- construct "codepipeline.Pipeline" here "LabInfraPipeline" (VObj [
      ("pipelineName", VStr "lab-infra-pipeline");
      ("role", pipelineRole);
      ("artifactBucket", artifactBucket);
      ("restartExecutionOnUpdate", VBool true) ]) ;;
  sourceOutput <- new_ "codepipeline.Artifact" [VStr "SourceOutput"] ;;
  buildOutput <- new_ "codepipeline.Artifact" [VStr "BuildOutput"] ;;
  sourceAction <- new_ "codepipeline_actions.S3SourceAction" [VObj [
      ("actionName", VStr "S3Source");
      ("bucket", sourceBucket);
      ("bucketKey", VStr "source.zip");
      ("output", sourceOutput);
      ("trigger", VMember "codepipeline_actions.S3Trigger.POLL") ]] ;;
  invoke pipeline "addStage" [VObj [
      ("stageName", VStr "Source");
      ("actions", VArr [sourceAction]) ]] ;;;
  buildAction <- new_ "codepipeline_actions.CodeBuildAction" [VObj [
      ("actionName", VStr "CDKSynth");
      ("project", buildProject);
      ("input", sourceOutput);
      ("outputs", VArr [buildOutput]) ]] ;;
  invoke pipeline "addStage" [VObj [
      ("stageName", VStr "Build");
      ("actions", VArr [buildAction]) ]] ;;;
  networkTemplate <- invoke buildOutput "atPath" [VStr "LabInfraNetworkStack.template.json"] ;;
  deployNetwork <- new_ "codepipeline_actions.CloudFormationCreateUpdateStackAction" [VObj [
      ("actionName", VStr "DeployNetworkStack");
      ("stackName", VStr "LabInfraNetworkStack");
      ("templatePath", networkTemplate);
      ("adminPermissions", VBool true);
      ("runOrder", VNum 1) ]] ;;
  fargateTemplate <- invoke buildOutput "atPath"
      [VStr "LabInfraFargateServiceStack.template.json"] ;;
  deployFargate <- new_ "codepipeline_actions.CloudFormationCreateUpdateStackAction" [VObj [
      ("actionName", VStr "DeployFargateServiceStack");
      ("stackName", VStr "LabInfraFargateServiceStack");
      ("templatePath", fargateTemplate);
      ("adminPermissions", VBool true);
      ("runOrder", VNum 2) ]] ;;
  invoke pipeline "addStage" [VObj [
      ("stageName", VStr "Deploy");
      ("actions", VArr [deployNetwork; deployFargate]) ]] ;;;
  construct "cdk.CfnOutput" here "PipelineName" (VObj [
      ("value", VGet pipeline "pipelineName");
      ("description", VStr "CodePipeline名");
      ("exportName", VStr "LabInfra-PipelineName") ]) ;;;
  construct "cdk.CfnOutput" here "PipelineArn" (VObj [
      ("value", VGet pipeline "pipelineArn");
      ("description", VStr "CodePipelineのARN");
      ("exportName", VStr "LabInfra-PipelineArn") ]) ;;;
  construct "cdk.CfnOutput" here "SourceBucketName" (VObj [
      ("value", VGet sourceBucket "bucketName");
      ("description", VStr "ソースコード用S3バケット名");
      ("exportName", VStr "LabInfra-SourceBucketName") ]) ;;;
  construct "cdk.CfnOutput" here "BuildProjectName" (VObj [
      ("value", VGet buildProject "projectName");
      ("description", VStr "CodeBuildプロジェクト名");
      ("exportName", VStr "LabInfra-BuildProjectName") ]) ;;;
  synth_ret {| ps_this := this; ps_pipeline := pipeline; ps_sourceBucket := sourceBucket |}.

(** ** bin/lab-infra.ts *)

(** [process.env.NAME]: the variable's value, or [undefined]. *)
Definition env_var (penv : gmap string string) (name : string) : value :=
  match penv !! name with
  | Some s => VStr s
  | None => VUndef
  end.

(** JavaScript truthiness, for the values that [process.env] yields and
    the literals of this program. *)
Definition truthy (v : value) : bool :=
  match v with
  | VUndef => false
  | VStr s => negb (String.eqb s EmptyString)
  | VNum n => negb (Z.eqb n 0)
  | VBool b => b
  | _ => true
  end.

(** [a || b] *)
Definition js_or (a b : value) : value := if truthy a then a else b.

Record AppObj := {
  app_network : NetworkStackObj;
  app_fargate : FargateServiceStackObj;
  app_pipeline : PipelineStackObj
}.

Definition lab_infra (penv : gmap string string) : Synth AppObj :=
  app <- new_ "cdk.App" [] ;;
  let root : list string := [] in
  let env := VObj [
      ("account", env_var penv "CDK_DEFAULT_ACCOUNT");
      ("region", js_or (env_var penv "CDK_DEFAULT_REGION") (VStr "ap-northeast-1")) ] in
  networkStack <- NetworkStack root "LabInfraNetworkStack" (VObj [
      ("env", env);
      ("description", VStr "学習用ラボ - ネットワーク基盤スタック（VPC、サブネット）") ]) ;;
  fargateServiceStack <- FargateServiceStack root "LabInfraFargateServiceStack" (VObj [
      ("env", env);
      ("description", VStr "学習用ラボ - ECS Fargateサービススタック");
      ("vpc", ns_vpc networkStack) ]) ;;
  pipelineStack <- PipelineStack root "LabInfraPipelineStack" (VObj [
      ("env", env);
      ("description", VStr "学習用ラボ - CI/CDパイプラインスタック") ]) ;;
  invoke (fs_this fargateServiceStack) "addDependency" [ns_this networkStack] ;;;
  tags1 <- static "cdk.Tags" "of" [app] ;;
  invoke tags1 "add" [VStr "Project"; VStr "LabInfra"] ;;;
  tags2 <- static "cdk.Tags" "of" [app] ;;
  invoke tags2 "add" [VStr "Purpose"; VStr "Learning"] ;;;
  tags3 <- static "cdk.Tags" "of" [app] ;;
  invoke tags3 "add" [VStr "Environment"; VStr "Development"] ;;;
  synth_ret {| app_network := networkStack;
               app_fargate := fargateServiceStack;
               app_pipeline := pipelineStack |}.

(** ** The declared configuration *)

(** A framework that accepts every call. *)
Definition permissive (pub iso : list Subnet) : Framework :=
  {| accepts := λ _ _, true; publicSubnets := pub; isolatedSubnets := iso |}.

(** The calls the program makes when the framework accepts all of them. *)
Definition declared (penv : gmap string string) (pub iso : list Subnet) : list call :=
  snd (lab_infra penv (permissive pub iso) []).

(** The calls outside the two [forEach] loops of [NetworkStack]: the five
    made before them ([cdk.App], the network stack, its Vpc, [VpcId],
    [VpcCidr]) and all those made after them. *)
Definition before_loops (penv : gmap string string) : list call :=
  firstn 5 (declared penv [] []).
Definition after_loops (penv : gmap string string) : list call :=
  skipn 5 (declared penv [] []).

Definition networkPath : list string := ["LabInfraNetworkStack"].
Definition fargatePath : list string := ["LabInfraFargateServiceStack"].
Definition pipelinePath : list string := ["LabInfraPipelineStack"].

(** ** Replaying a call sequence against a framework

    [completed ok served t] is the longest prefix of [t] the framework
    accepts call by call after [served], and [rejected ok served t] the
    first call it throws on. *)
Fixpoint completed (ok : list call → call → bool) (served t : list call) : list call :=
  match t with
  | [] => []
  | c :: rest => if ok served c then c :: completed ok (served ++ [c]) rest else []
  end.

Fixpoint rejected (ok : list call → call → bool) (served t : list call) : option call :=
  match t with
  | [] => None
  | c :: rest => if ok served c then rejected ok (served ++ [c]) rest else Some c
  end.

Definition replay {A} (ok : list call → call → bool) (served : list call) (a : A)
    (t : list call) : outcome A * list call :=
  (match rejected ok served t with
   | None => Done a
   | Some c => Failed (FrameworkThrew c)
   end, completed ok served t).

(** A computation is [straight] when its run against any framework is the
    replay of one fixed call sequence: it never recovers from a throw,
    raises nothing itself, and does not look at which calls succeeded. *)
Definition straight {A} (m : Synth A) : Prop :=
  ∀ pub iso, ∃ a t, ∀ ok served,
    m {| accepts := ok; publicSubnets := pub; isolatedSubnets := iso |} served
    = replay ok served a t.

(** ** Observations on a call sequence *)

Definition is_construct (cls : string) (c : call) : bool :=
  match c with
  | Construct cls' _ _ _ => String.eqb cls' cls
  | _ => false
  end.

Definition props_of (c : call) : value :=
  match c with
  | Construct _ _ _ props => props
  | _ => VUndef
  end.

Definition id_of (c : call) : string :=
  match c with
  | Construct _ _ id _ => id
  | _ => EmptyString
  end.

Definition scope_of (c : call) : list string :=
  match c with
  | Construct _ scope _ _ => scope
  | _ => []
  end.

Definition class_of (c : call) : string :=
  match c with
  | Construct cls _ _ _ => cls
  | New cls _ => cls
  | Static cls _ _ => cls
  | Invoke _ _ _ => EmptyString
  end.

Definition str_of (v : value) : string :=
  match v with
  | VStr s => s
  | _ => EmptyString
  end.

Definition list_eqb (a b : list string) : bool := bool_decide (a = b).

(** The constructs of class [cls] in a call sequence. *)
Definition constructs (cls : string) (t : list call) : list call :=
  List.filter (is_construct cls) t.

(** The ids of the stacks built, in order. *)
Definition stacks (t : list call) : list string :=
  map id_of (constructs "cdk.Stack" t).

(** [runs m fw a t]: against [fw], whatever it has served before, [m]
    completes with value [a] after making the calls [t]. *)
Definition runs {A} (m : Synth A) (fw : Framework) (a : A) (t : list call) : Prop :=
  ∀ served, m fw served = (Done a, t).

Definition is_output (c : call) : bool := is_construct "cdk.CfnOutput" c.

Definition in_scope (scope : list string) (c : call) : bool :=
  match c with
  | Construct _ scope' _ _ => list_eqb scope' scope
  | _ => false
  end.

(** The constructs built directly in a stack that are not outputs, as
    (class, id). *)
Definition resources (stack : list string) (t : list call) : list (string * string) :=
  map (λ c, (class_of c, id_of c))
      (List.filter (λ c, in_scope stack c && negb (is_output c)) t).

(** A construct is made with a parameter object when its third argument
    is an object literal. *)
Definition has_parameter_object (c : call) : bool :=
  match c with
  | Construct _ _ _ (VObj _) => true
  | Construct _ _ _ _ => false
  | _ => true
  end.

Definition exportName (c : call) : string := str_of (field "exportName" (props_of c)).

(** The outputs of a stack, as (id, exportName). *)
Definition outputs (stack : list string) (t : list call) : list (string * string) :=
  map (λ c, (id_of c, exportName c))
      (List.filter (λ c, in_scope stack c && is_output c) t).

Definition export_names (t : list call) : list string :=
  map exportName (constructs "cdk.CfnOutput" t).

(** [s.startsWith(pre)] *)
Fixpoint starts_with (pre s : string) : bool :=
  match pre with
  | EmptyString => true
  | String a pre' =>
      match s with
      | EmptyString => false
      | String b s' => Ascii.eqb a b && starts_with pre' s'
      end
  end.

(** Which family an export name belongs to: 1 for the public-subnet
    outputs, 2 for the private-subnet outputs, 0 otherwise. *)
Definition export_family (s : string) : nat :=
  if starts_with "LabInfra-PublicSubnet" s then 1%nat
  else if starts_with "LabInfra-PrivateSubnet" s then 2%nat
  else 0%nat.

(** The value of property [name] of every construct of class [cls]. *)
Definition prop_values (cls name : string) (t : list call) : list value :=
  map (λ c, field name (props_of c)) (constructs cls t).

Definition items (v : value) : list value :=
  match v with
  | VArr vs => vs
  | _ => []
  end.

Definition num_of (v : value) : Z :=
  match v with
  | VNum n => n
  | _ => 0
  end.

(** The [env] handed to each stack, in order. *)
Definition stack_envs (t : list call) : list value := prop_values "cdk.Stack" "env" t.

(** *** Dependencies between stacks *)

(** The constructs a value mentions. *)
Fixpoint refs (v : value) : list (list string) :=
  let fix refs_list (vs : list value) : list (list string) :=
    match vs with
    | [] => []
    | v :: rest => refs v ++ refs_list rest
    end in
  match v with
  | VConstruct p => [p]
  | VObj fields =>
      (fix refs_fields (fs : list (string * value)) : list (list string) :=
         match fs with
         | [] => []
         | (_, v) :: rest => refs v ++ refs_fields rest
         end) fields
  | VArr vs | VCat vs | VNew _ vs | VStatic _ _ vs => refs_list vs
  | VInvoke recv _ vs => refs recv ++ refs_list vs
  | VGet recv _ => refs recv
  | _ => []
  end.

(** The stack a construct path lies in: its first component. *)
Definition stack_of (p : list string) : string := hd EmptyString p.

(** The stack on whose behalf a call is made: the stack a construct is
    built in (for a stack, itself), or the stack of the construct a method
    is invoked on. *)
Definition owner (c : call) : option string :=
  match c with
  | Construct _ scope id _ => Some (stack_of (scope ++ [id]))
  | Invoke (VConstruct p) _ _ => Some (stack_of p)
  | _ => None
  end.

Definition arguments (c : call) : list value :=
  match c with
  | Construct _ _ _ props => [props]
  | New _ args | Static _ _ args | Invoke _ _ args => args
  end.

(** [(a, b)] when a call made for stack [a] is handed a construct of
    another stack [b]: either a cross-stack reference in a parameter or an
    explicit [addDependency]. *)
Definition call_dependencies (c : call) : list (string * string) :=
  match owner c with
  | None => []
  | Some a =>
      map (λ p, (a, stack_of p))
          (List.filter (λ p, negb (String.eqb (stack_of p) a))
                       (flat_map refs (arguments c)))
  end.

Definition stack_dependencies (t : list call) : list (string * string) :=
  flat_map call_dependencies t.

Definition is_invoke (meth : string) (c : call) : bool :=
  match c with
  | Invoke _ meth' _ => String.eqb meth' meth
  | _ => false
  end.

Definition is_static (cls : string) (c : call) : bool :=
  match c with
  | Static cls' _ _ => String.eqb cls' cls
  | _ => false
  end.

(** The single argument of [new cls(arg)]. *)
Definition new_arg (v : value) : value :=
  match v with
  | VNew _ [a] => a
  | _ => VUndef
  end.

(** The actions of the pipeline stage called [stage], as
    (stackName, runOrder). *)
Definition stage_order (stage : string) (t : list call) : list (string * Z) :=
  flat_map
    (λ c,
       match c with
       | Invoke _ meth [props] =>
           if String.eqb meth "addStage" && String.eqb (str_of (field "stageName" props)) stage
           then map (λ a, (str_of (field "stackName" (new_arg a)),
                           num_of (field "runOrder" (new_arg a))))
                    (items (field "actions" props))
           else []
       | _ => []
       end) t.

(** *** Shape of a call: what is called, without the parameters *)
Definition shape (c : call) : string * string :=
  match c with
  | Construct cls _ id _ => (cls, id)
  | New cls _ => (cls, EmptyString)
  | Static cls meth _ => (cls, meth)
  | Invoke _ meth _ => (EmptyString, meth)
  end.

(** The subnet groups of the Vpc, as (name, subnetType). *)
Definition subnet_groups (t : list call) : list (string * value) :=
  flat_map (λ v, map (λ g, (str_of (field "name" g), field "subnetType" g)) (items v))
           (prop_values "ec2.Vpc" "subnetConfiguration" t).

(** The region handed to each stack. *)
Definition region_params (t : list call) : list value :=
  map (field "region") (stack_envs t).

Definition receiver (c : call) : value :=
  match c with
  | Invoke recv _ _ => recv
  | _ => VUndef
  end.

(** The task definition each container is added to, with the container's
    memory limit. *)
Definition container_limits (t : list call) : list (value * Z) :=
  map (λ c, (receiver c, num_of (field "memoryLimitMiB" (nth 1 (arguments c) VUndef))))
      (List.filter (is_invoke "addContainer") t).

(** Each task definition with its memory limit. *)
Definition task_limits (t : list call) : list (value * Z) :=
  map (λ c, (result_of c, num_of (field "memoryLimitMiB" (props_of c))))
      (constructs "ecs.FargateTaskDefinition" t).

(** *** What the provider enforces *)

Definition is_digit (c : Ascii.ascii) : bool :=
  let n := Ascii.nat_of_ascii c in (48 <=? n)%nat && (n <=? 57)%nat.

Fixpoint parse_digits (s : string) (acc : Z) : option Z :=
  match s with
  | EmptyString => Some acc
  | String c rest =>
      if is_digit c
      then parse_digits rest (acc * 10 + Z.of_nat (Ascii.nat_of_ascii c) - 48)%Z
      else None
  end.

Definition parse_number (s : string) : option Z :=
  match s with
  | EmptyString => None
  | _ => parse_digits s 0
  end.

Fixpoint split_on (sep : Ascii.ascii) (s : string) : list string :=
  match s with
  | EmptyString => [EmptyString]
  | String c rest =>
      if Ascii.eqb c sep then EmptyString :: split_on sep rest
      else match split_on sep rest with
           | [] => [String c EmptyString]
           | h :: t => String c h :: t
           end
  end.

Definition slash : Ascii.ascii := Ascii.ascii_of_nat 47.
Definition dot : Ascii.ascii := Ascii.ascii_of_nat 46.

(** Modelled from the spec: the provider's check of "valid CIDR syntax",
    which is not part of this repository.  A CIDR block is four decimal
    octets (0..255) separated by dots, a slash and a prefix length
    (0..32); the result is the octets and the prefix length. *)
Definition parse_cidr (s : string) : option (list Z * Z) :=
  match split_on slash s with
  | [addr; mask] =>
      match mapM parse_number (split_on dot addr), parse_number mask with
      | Some octets, Some m =>
          if (length octets =? 4)%nat && forallb (λ o, o <=? 255)%Z octets && (m <=? 32)%Z
          then Some (octets, m)
          else None
      | _, _ => None
      end
  | _ => None
  end.

(** Modelled from the spec: the provider's check of the Vpc parameters,
    which is not part of this repository.  The address block is a valid
    CIDR and the prefix length of each subnet group is a number from that
    of the Vpc up to 32. *)
Definition vpc_props_valid (props : value) : bool :=
  match field "cidr" props with
  | VStr cidr =>
      match parse_cidr cidr with
      | Some (_, vpcMask) =>
          forallb (λ g, match field "cidrMask" g with
                        | VNum m => (vpcMask <=? m)%Z && (m <=? 32)%Z
                        | _ => false
                        end)
                  (items (field "subnetConfiguration" props))
      | None => false
      end
  | _ => false
  end.

(** Modelled from the spec: the provider's table of "compatible CPU/memory
    combinations" for Fargate, which is not part of this repository.  Only
    the row the source states in its comment is known: for cpu 256 the
    memory may be 512, 1024 or 2048 MiB. *)
Definition allowed_memory (cpu : Z) : list Z :=
  if (cpu =? 256)%Z then [512; 1024; 2048]%Z else [].

Definition task_size_valid (props : value) : bool :=
  match field "cpu" props, field "memoryLimitMiB" props with
  | VNum cpu, VNum mem => existsb (Z.eqb mem) (allowed_memory cpu)
  | _, _ => false
  end.

(** *** Sample inputs *)

Definition public_a : Subnet :=
  {| subnetId := "subnet-0a11"; availabilityZone := "ap-northeast-1a" |}.
Definition public_c : Subnet :=
  {| subnetId := "subnet-0c12"; availabilityZone := "ap-northeast-1c" |}.
Definition isolated_a : Subnet :=
  {| subnetId := "subnet-0a21"; availabilityZone := "ap-northeast-1a" |}.
Definition isolated_c : Subnet :=
  {| subnetId := "subnet-0c22"; availabilityZone := "ap-northeast-1c" |}.

Definition sample_env_dev : gmap string string :=
  <["CDK_DEFAULT_REGION" := "us-west-2"]> (<["HOME" := "/home/dev"]> ∅).

Definition sample_env_ci : gmap string string :=
  <["CDK_DEFAULT_REGION" := "us-west-2"]> (<["CI" := "true"]> ∅).

Definition sample_env_empty_region : gmap string string :=
  <["CDK_DEFAULT_REGION" := EmptyString]> ∅.

(** ** Further observations *)

(** *** The construct tree *)

(** The path a call adds to the construct tree: a construct is added under
    its scope, and [new cdk.App()] makes the root. *)
Definition built_by (c : call) : list (list string) :=
  match c with
  | Construct _ scope id _ => [scope ++ [id]]
  | New cls _ => if String.eqb cls "cdk.App" then [[]] else []
  | _ => []
  end.

(** The construct paths of a call sequence, in the order they are built. *)
Definition paths (t : list call) : list (list string) := flat_map built_by t.

(** The constructs a call needs to exist: the scope of a construct and
    every construct its arguments or its receiver mention. *)
Definition mentions (c : call) : list (list string) :=
  match c with
  | Construct _ scope _ props => scope :: refs props
  | New _ args | Static _ _ args => flat_map refs args
  | Invoke recv _ args => refs recv ++ flat_map refs args
  end.

(** Whether the construct at path [p] has been built. *)
Definition is_built (built : list (list string)) (p : list string) : bool :=
  existsb (list_eqb p) built.

(** Every call mentions only constructs built before it. *)
Fixpoint well_scoped (built : list (list string)) (t : list call) : bool :=
  match t with
  | [] => true
  | c :: rest =>
      forallb (is_built built) (mentions c) && well_scoped (built ++ built_by c) rest
  end.

(** Which family a construct path belongs to, by its last component. *)
Definition path_family (p : list string) : nat :=
  match last p with
  | Some id =>
      if starts_with "PublicSubnet" id then 1%nat
      else if starts_with "PrivateSubnet" id then 2%nat
      else 0%nat
  | None => 0%nat
  end.

(** *** Looking up an export *)

(** Whether a call is the output exported under [name]. *)
Definition exports_as (name : string) (c : call) : bool :=
  is_output c && String.eqb (exportName c) name.

(** The value exported under [name], if any: what a consumer of the
    export gets. *)
Definition export_value (name : string) (t : list call) : option value :=
  option_map (λ c, field "value" (props_of c)) (List.find (exports_as name) t).

(** The export names of the two loops of [NetworkStack], for the subnet
    at position [i]. *)
Definition public_export (i : nat) : string :=
  "LabInfra-PublicSubnet" +:+ pretty (i + 1)%nat +:+ "Id".

Definition private_export (i : nat) : string :=
  "LabInfra-PrivateSubnet" +:+ pretty (i + 1)%nat +:+ "Id".

(** A call with the [env] property of a stack's parameters removed. *)
Definition without_env (c : call) : call :=
  match c with
  | Construct cls scope id (VObj fields) =>
      if String.eqb cls "cdk.Stack"
      then Construct cls scope id
             (VObj (List.filter (λ kv, negb (String.eqb (fst kv) "env")) fields))
      else c
  | _ => c
  end.

(** The construct of the stack called [id]. *)
Definition is_stack (id : string) (c : call) : bool :=
  is_construct "cdk.Stack" c && String.eqb (id_of c) id.

(** A framework that accepts every call except the constructs of class
    [cls]. *)
Definition rejecting (cls : string) (pub iso : list Subnet) : Framework :=
  {| accepts := λ _ c, negb (is_construct cls c);
     publicSubnets := pub; isolatedSubnets := iso |}.

(** *** The pipeline's stages and artifacts *)

(** The parameter objects of the [addStage] calls, in order. *)
Definition stages (t : list call) : list value :=
  flat_map (λ c, match c with
                 | Invoke _ meth [props] =>
                     if String.eqb meth "addStage" then [props] else []
                 | _ => []
                 end) t.

(** The name given to [new codepipeline.Artifact(name)]. *)
Definition artifact_name (v : value) : option string :=
  match v with
  | VNew cls [VStr name] =>
      if String.eqb cls "codepipeline.Artifact" then Some name else None
  | _ => None
  end.

(** A property that is set, as a list. *)
Definition present (v : value) : list value :=
  match v with
  | VUndef => []
  | _ => [v]
  end.

(** The artifacts an action reads: its [input], and the artifact its
    [templatePath] is taken from. *)
Definition action_inputs (a : value) : list value :=
  present (field "input" (new_arg a))
  ++ match field "templatePath" (new_arg a) with
     | VInvoke artifact meth _ => if String.eqb meth "atPath" then [artifact] else []
     | _ => []
     end.

(** The artifacts an action writes: its [output] and its [outputs]. *)
Definition action_outputs (a : value) : list value :=
  present (field "output" (new_arg a)) ++ items (field "outputs" (new_arg a)).

(** Whether the artifact [v] has been written by an earlier stage. *)
Definition is_available (available : list string) (v : value) : bool :=
  match artifact_name v with
  | Some name => existsb (String.eqb name) available
  | None => false
  end.

(** Every action reads only artifacts written by an earlier stage. *)
Fixpoint artifacts_flow (available : list string) (stages : list value) : bool :=
  match stages with
  | [] => true
  | s :: rest =>
      let actions := items (field "actions" s) in
      forallb (λ a, forallb (is_available available) (action_inputs a)) actions
      && artifacts_flow
           (available ++ omap artifact_name (flat_map action_outputs actions)) rest
  end.

(** *** Storage *)

(** A bucket blocks all public access, is encrypted and versioned. *)
Definition bucket_locked_down (props : value) : bool :=
  match field "blockPublicAccess" props, field "encryption" props,
        field "versioned" props with
  | VMember block, VMember enc, VBool true =>
      String.eqb block "s3.BlockPublicAccess.BLOCK_ALL"
      && String.eqb enc "s3.BucketEncryption.S3_MANAGED"
  | _, _, _ => false
  end.

(** A resource is removed when its stack is. *)
Definition destroyed_with_stack (props : value) : bool :=
  match field "removalPolicy" props with
  | VMember policy => String.eqb policy "cdk.RemovalPolicy.DESTROY"
  | _ => false
  end.

(** *** What the outputs carry, and the kinds of call *)

(** The outputs of a stack, as (id, value). *)
Definition output_values (stack : list string) (t : list call) : list (string * value) :=
  map (λ c, (id_of c, field "value" (props_of c)))
      (List.filter (λ c, in_scope stack c && is_output c) t).

(** The kinds of call the program makes: [new] with an object literal as
    the parameters (for a construct, after its scope and id), [new] with
    other arguments, a static factory call, a method call. *)
Inductive call_kind : Type :=
| ConstructorWithObject
| ConstructorOther
| StaticFactory
| MethodCall.

Definition kind_of (c : call) : call_kind :=
  match c with
  | Construct _ _ _ (VObj _) => ConstructorWithObject
  | Construct _ _ _ _ => ConstructorOther
  | New _ [VObj _] => ConstructorWithObject
  | New _ _ => ConstructorOther
  | Static _ _ _ => StaticFactory
  | Invoke _ _ _ => MethodCall
  end.

Definition kind_eqb (a b : call_kind) : bool :=
  match a, b with
  | ConstructorWithObject, ConstructorWithObject
  | ConstructorOther, ConstructorOther
  | StaticFactory, StaticFactory
  | MethodCall, MethodCall => true
  | _, _ => false
  end.

Definition has_kind (k : call_kind) (c : call) : bool := kind_eqb (kind_of c) k.

Definition count_kind (k : call_kind) (t : list call) : nat :=
  length (List.filter (has_kind k) t).

(** The outputs made in the first and in the second loop of
    [NetworkStack], told by their export names. *)
Definition is_public_output (c : call) : bool :=
  is_output c && Nat.eqb (export_family (exportName c)) 1.
Definition is_isolated_output (c : call) : bool :=
  is_output c && Nat.eqb (export_family (exportName c)) 2.

(** The artifacts read and written by each stage, by name. *)
Definition stage_reads (s : value) : list (option string) :=
  map artifact_name (flat_map action_inputs (items (field "actions" s))).
Definition stage_writes (s : value) : list (option string) :=
  map artifact_name (flat_map action_outputs (items (field "actions" s))).

(** * Properties *)

(** ** Replay of a concatenation *)

Lemma rejected_app (ok : list call → call → bool) (served t1 t2 : list call) :
  rejected ok served (t1 ++ t2) =
  match rejected ok served t1 with
  | Some c => Some c
  | None => rejected ok (served ++ t1) t2
  end.
Proof.
  revert served. induction t1 as [|c t1 IH]; intros served; simpl.
  - rewrite app_nil_r. reflexivity.
  - destruct (ok served c); [|reflexivity].
    rewrite IH, <- app_assoc. reflexivity.
Qed.

Lemma completed_app (ok : list call → call → bool) (served t1 t2 : list call) :
  completed ok served (t1 ++ t2) =
  match rejected ok served t1 with
  | Some _ => completed ok served t1
  | None => t1 ++ completed ok (served ++ t1) t2
  end.
Proof.
  revert served. induction t1 as [|c t1 IH]; intros served; simpl.
  - rewrite app_nil_r. reflexivity.
  - destruct (ok served c); [|reflexivity].
    rewrite IH, <- app_assoc. destruct (rejected ok (served ++ [c]) t1); reflexivity.
Qed.

Lemma completed_all (ok : list call → call → bool) (served t : list call) :
  rejected ok served t = None → completed ok served t = t.
Proof.
  revert served. induction t as [|c t IH]; intros served; simpl; [reflexivity|].
  destruct (ok served c); [|discriminate]. intros H. rewrite (IH _ H). reflexivity.
Qed.

Section Replay.
Context {A B : Type}.

Lemma replay_app (ok : list call → call → bool) (served : list call) (a : A) (b : B)
    (t1 t2 : list call) :
  replay ok served b (t1 ++ t2) =
  match replay ok served a t1 with
  | (Done _, t) => let '(r, t') := replay ok (served ++ t1) b t2 in (r, t ++ t')
  | (Failed f, t) => (Failed f, t)
  end.
Proof.
  unfold replay. rewrite rejected_app, completed_app.
  destruct (rejected ok served t1) as [c|] eqn:E; [reflexivity|].
  rewrite (completed_all ok served t1 E). reflexivity.
Qed.

Lemma straight_bind (m : Synth A) (k : A → Synth B) :
  straight m → (∀ a, straight (k a)) → straight (synth_bind m k).
Proof.
  intros Hm Hk pub iso.
  destruct (Hm pub iso) as (a & t1 & Ha).
  destruct (Hk a pub iso) as (b & t2 & Hb).
  exists b, (t1 ++ t2). intros ok served.
  unfold synth_bind. rewrite Ha, (replay_app ok served a b).
  destruct (rejected ok served t1) eqn:E; unfold replay; rewrite E.
  - reflexivity.
  - rewrite (completed_all ok served t1 E), Hb. reflexivity.
Qed.
End Replay.

(** ** Every part of the program is straight *)

Lemma straight_ret {A} (a : A) : straight (synth_ret a).
Proof. intros pub iso. exists a, []. reflexivity. Qed.

Lemma straight_fw_call (c : call) : straight (fw_call c).
Proof.
  intros pub iso. exists (result_of c), [c]. intros ok served.
  unfold fw_call, replay. simpl. destruct (ok served c); reflexivity.
Qed.

Lemma straight_publicSubnets (vpc : value) : straight (vpc_publicSubnets vpc).
Proof. intros pub iso. exists pub, []. reflexivity. Qed.

Lemma straight_isolatedSubnets (vpc : value) : straight (vpc_isolatedSubnets vpc).
Proof. intros pub iso. exists iso, []. reflexivity. Qed.

Lemma straight_forEach {A} (l : list A) (body : A → nat → Synth unit) :
  (∀ x i, straight (body x i)) → straight (forEach l body).
Proof.
  revert body. induction l as [|x l IH]; intros body Hbody; simpl.
  - apply straight_ret.
  - apply straight_bind; [apply Hbody|]. intros _. apply IH. intros y i. apply Hbody.
Qed.

Create HintDb straight discriminated.
#[local] Hint Resolve straight_ret straight_fw_call straight_publicSubnets
  straight_isolatedSubnets : straight.

Ltac straight_step :=
  first
    [ solve [auto with straight]
    | apply straight_forEach; intros ? ?
    | apply straight_bind; [|intros ?] ].

Ltac straight_all := repeat (cbv zeta; straight_step).

Lemma straight_NetworkStack scope id props : straight (NetworkStack scope id props).
Proof. unfold NetworkStack, construct. straight_all. Qed.

Lemma straight_FargateServiceStack scope id props :
  straight (FargateServiceStack scope id props).
Proof. unfold FargateServiceStack, construct, new_, static, invoke. straight_all. Qed.

Lemma straight_PipelineStack scope id props : straight (PipelineStack scope id props).
Proof. unfold PipelineStack, construct, new_, static, invoke. straight_all. Qed.

Lemma straight_lab_infra penv : straight (lab_infra penv).
Proof.
  unfold lab_infra, new_, static, invoke.
  repeat (cbv zeta;
          first [ apply straight_NetworkStack
                | apply straight_FargateServiceStack
                | apply straight_PipelineStack
                | straight_step ]).
Qed.

(** ** Runs against a framework that accepts every call

    The calls of such a run are derived by following the program: each
    bind appends the calls of its two parts, and a [forEach] contributes
    one call per element. *)

Lemma runs_ret {A} (a : A) fw : runs (synth_ret a) fw a [].
Proof. intros served. reflexivity. Qed.

Lemma runs_bind {A B} (m : Synth A) (k : A → Synth B) fw a b t1 t2 :
  runs m fw a t1 → runs (k a) fw b t2 → runs (synth_bind m k) fw b (t1 ++ t2).
Proof.
  unfold runs, synth_bind. intros Hm Hk served.
  rewrite Hm, Hk. reflexivity.
Qed.

Lemma runs_fw_call c pub iso :
  runs (fw_call c) (permissive pub iso) (result_of c) [c].
Proof. intros served. reflexivity. Qed.

Lemma runs_publicSubnets vpc pub iso :
  runs (vpc_publicSubnets vpc) (permissive pub iso) pub [].
Proof. intros served. reflexivity. Qed.

Lemma runs_isolatedSubnets vpc pub iso :
  runs (vpc_isolatedSubnets vpc) (permissive pub iso) iso [].
Proof. intros served. reflexivity. Qed.

Lemma runs_forEach {A} (l : list A) (mk : A → nat → call) pub iso :
  runs (forEach l (λ x i, fw_call (mk x i) ;;; synth_ret tt)) (permissive pub iso) tt
       (imap (λ i x, mk x i) l).
Proof.
  revert mk. induction l as [|x l IH]; intros mk.
  - apply runs_ret.
  - simpl forEach.
    change (imap (λ i y, mk y i) (x :: l))
      with (([mk x 0%nat] ++ []) ++ imap (λ i y, mk y (S i)) l).
    eapply runs_bind; [|apply (IH (λ y i, mk y (S i)))].
    eapply runs_bind; [apply runs_fw_call | apply runs_ret].
Qed.

Lemma runs_construct cls scope id props pub iso :
  runs (fw_call (Construct cls scope id props)) (permissive pub iso)
       (VConstruct (scope ++ [id])) [Construct cls scope id props].
Proof. intros served. reflexivity. Qed.

Ltac runs_step :=
  lazy beta zeta; cbn [path_of];
  first
    [ apply runs_ret
    | apply runs_construct
    | apply runs_fw_call
    | apply runs_publicSubnets
    | apply runs_isolatedSubnets
    | apply runs_forEach
    | eapply runs_bind ].

Lemma runs_eq {A} (m : Synth A) fw a t t' : runs m fw a t → t = t' → runs m fw a t'.
Proof. intros H <-. exact H. Qed.

Lemma app_chain {A} (X Y R : list A) : (X ++ Y ++ []) ++ R = X ++ Y ++ R.
Proof. rewrite app_nil_r, <- app_assoc. reflexivity. Qed.

(** The calls of a run are five calls, the outputs of the two loops, and
    the remaining calls; only the loops depend on the subnets. *)
Lemma lab_infra_runs penv :
  ∃ t1 t2, length t1 = 5%nat ∧ ∀ pub iso, ∃ r,
    runs (lab_infra penv) (permissive pub iso) r
      (t1 ++ imap (λ i x, publicSubnetOutput networkPath x i) pub
          ++ imap (λ i x, isolatedSubnetOutput networkPath x i) iso ++ t2).
Proof.
  eexists _, _. split; cycle 1.
  - intros pub iso. eexists.
    eapply runs_eq.
    + unfold lab_infra, NetworkStack, FargateServiceStack, PipelineStack,
        construct, new_, static, invoke.
      repeat runs_step.
    + cbn [app]. refine (f_equal (app [_; _; _; _; _]) _). apply app_chain.
  - reflexivity.
Qed.

Lemma declared_split penv pub iso :
  declared penv pub iso =
  before_loops penv
  ++ imap (λ i x, publicSubnetOutput networkPath x i) pub
  ++ imap (λ i x, isolatedSubnetOutput networkPath x i) iso
  ++ after_loops penv.
Proof.
  destruct (lab_infra_runs penv) as (t1 & t2 & Hlen & H).
  unfold before_loops, after_loops, declared.
  destruct (H pub iso) as (r & Hr). destruct (H [] []) as (r0 & Hr0).
  rewrite (Hr []), (Hr0 []).
  cbn [snd imap app].
  rewrite take_app_length' by (symmetry; exact Hlen).
  rewrite drop_app_length' by (symmetry; exact Hlen). reflexivity.
Qed.

(** ** Lists built by [forEach] *)

Lemma filter_imap_none {A} (p : call → bool) (f : nat → A → call) (l : list A) :
  (∀ i x, p (f i x) = false) → List.filter p (imap f l) = [].
Proof.
  revert f. induction l as [|x l IH]; intros f Hf; simpl; [reflexivity|].
  rewrite Hf. apply IH. intros i y. apply Hf.
Qed.

Lemma filter_imap_all {A} (p : call → bool) (f : nat → A → call) (l : list A) :
  (∀ i x, p (f i x) = true) → List.filter p (imap f l) = imap f l.
Proof.
  revert f. induction l as [|x l IH]; intros f Hf; simpl; [reflexivity|].
  rewrite Hf. f_equal. apply IH. intros i y. apply Hf.
Qed.

Lemma forallb_imap {A} (p : call → bool) (f : nat → A → call) (l : list A) :
  (∀ i x, p (f i x) = true) → forallb p (imap f l) = true.
Proof.
  revert f. induction l as [|x l IH]; intros f Hf; simpl; [reflexivity|].
  rewrite Hf. apply IH. intros i y. apply Hf.
Qed.

Lemma flat_map_imap_nil {A B} (g : call → list B) (f : nat → A → call) (l : list A) :
  (∀ i x, g (f i x) = []) → flat_map g (imap f l) = [].
Proof.
  revert f. induction l as [|x l IH]; intros f Hf; simpl; [reflexivity|].
  rewrite Hf. apply IH. intros i y. apply Hf.
Qed.

Lemma NoDup_imap_inj {A B} (f : nat → A → B) (l : list A) :
  (∀ i j x y, f i x = f j y → i = j) → NoDup (imap f l).
Proof.
  revert f. induction l as [|x l IH]; intros f Hf; simpl.
  - constructor.
  - constructor.
    + intros Hin. apply elem_of_lookup_imap in Hin as (i & y & Heq & _).
      apply Hf in Heq. discriminate.
    + apply IH. intros i j y z Heq. apply Hf in Heq. congruence.
Qed.

Lemma Forall_imap {A B} (P : B → Prop) (f : nat → A → B) (l : list A) :
  (∀ i x, P (f i x)) → Forall P (imap f l).
Proof.
  revert f. induction l as [|x l IH]; intros f Hf; simpl; constructor.
  - apply Hf.
  - apply IH. intros i y. apply Hf.
Qed.

(** ** Strings *)

Lemma string_length_append (s1 s2 : string) :
  String.length (s1 +:+ s2) = (String.length s1 + String.length s2)%nat.
Proof. induction s1 as [|c s1 IH]; simpl; [reflexivity | rewrite IH; reflexivity]. Qed.

Lemma append_inj_r (s1 s2 t : string) : s1 +:+ t = s2 +:+ t → s1 = s2.
Proof.
  revert s2. induction s1 as [|c s1 IH]; intros [|d s2] H.
  - reflexivity.
  - apply (f_equal String.length) in H.
    rewrite !string_length_append in H. cbn [String.length] in H. lia.
  - apply (f_equal String.length) in H.
    rewrite !string_length_append in H. cbn [String.length] in H. lia.
  - change (String c (s1 +:+ t) = String d (s2 +:+ t)) in H.
    injection H as -> H. f_equal. apply IH, H.
Qed.

(** The id of a subnet output determines the position of the subnet:
    [`${index + 1}`] prints different numbers differently. *)
Lemma subnet_name_inj (pre : string) (i j : nat) :
  pre +:+ pretty (i + 1)%nat +:+ "Id" = pre +:+ pretty (j + 1)%nat +:+ "Id" → i = j.
Proof.
  intros H. apply (inj (String.app pre)) in H.
  apply append_inj_r in H. apply (inj pretty) in H. lia.
Qed.

Lemma NoDup_families (A P I B : list string) :
  NoDup (A ++ B) → Forall (λ s, export_family s = 0%nat) (A ++ B) →
  NoDup P → Forall (λ s, export_family s = 1%nat) P →
  NoDup I → Forall (λ s, export_family s = 2%nat) I →
  NoDup (A ++ P ++ I ++ B).
Proof.
  rewrite !NoDup_app, !Forall_app, !Forall_forall.
  intros (HA & HAB & HB) (FA & FB) HP FP HI FI.
  repeat split; try assumption.
  - intros x Hx. rewrite !elem_of_app. intros [Hin|[Hin|Hin]].
    + apply FP in Hin. apply FA in Hx. congruence.
    + apply FI in Hin. apply FA in Hx. congruence.
    + exact (HAB x Hx Hin).
  - intros x Hx. rewrite !elem_of_app. intros [Hin|Hin].
    + apply FI in Hin. apply FP in Hx. congruence.
    + apply FB in Hin. apply FP in Hx. congruence.
  - intros x Hx Hin. apply FB in Hin. apply FI in Hx. congruence.
Qed.

(** ** The fixed part of the call sequence *)

(** The two values read from the environment are made opaque before the
    calls outside the loops are evaluated. *)
Ltac abstract_env penv :=
  unfold before_loops, after_loops, declared, lab_infra;
  generalize (env_var penv "CDK_DEFAULT_ACCOUNT");
  generalize (js_or (env_var penv "CDK_DEFAULT_REGION") (VStr "ap-northeast-1"));
  intros ? ?.

Lemma fixed_exports penv :
  map exportName (List.filter (is_construct "cdk.CfnOutput") (before_loops penv))
  = [ "LabInfra-VpcId"; "LabInfra-VpcCidr" ]
  ∧ map exportName (List.filter (is_construct "cdk.CfnOutput") (after_loops penv))
  = [ "LabInfra-ClusterName"; "LabInfra-ClusterArn"; "LabInfra-ServiceName";
      "LabInfra-ServiceArn"; "LabInfra-TaskDefinitionArn"; "LabInfra-LogGroupName";
      "LabInfra-PipelineName"; "LabInfra-PipelineArn"; "LabInfra-SourceBucketName";
      "LabInfra-BuildProjectName" ].
Proof. abstract_env penv. vm_compute. split; reflexivity. Qed.

(** The values read from the environment are strings or [undefined]. *)
Lemma env_values penv :
  ∃ (account : option string) (region : string),
    env_var penv "CDK_DEFAULT_ACCOUNT" = from_option VStr VUndef account
    ∧ js_or (env_var penv "CDK_DEFAULT_REGION") (VStr "ap-northeast-1") = VStr region.
Proof.
  exists (penv !! "CDK_DEFAULT_ACCOUNT").
  unfold env_var, js_or.
  destruct (penv !! "CDK_DEFAULT_REGION") as [s|]; cbn [truthy].
  - destruct (String.eqb s EmptyString); eexists; split; try reflexivity;
      destruct (penv !! "CDK_DEFAULT_ACCOUNT"); reflexivity.
  - eexists; split; [destruct (penv !! "CDK_DEFAULT_ACCOUNT")|]; reflexivity.
Qed.

(** Where a proof inspects the environment values themselves, they are
    replaced by a string or [undefined]. *)
Ltac concrete_env penv :=
  let a := fresh "account" in
  let r := fresh "region" in
  let Ha := fresh "Ha" in
  let Hr := fresh "Hr" in
  destruct (env_values penv) as (a & r & Ha & Hr);
  unfold before_loops, after_loops, declared, lab_infra;
  rewrite Ha, Hr; clear Ha Hr; destruct a; cbn [from_option].

(** The calls of the two loops are outputs of the network stack: they are
    dropped by any filter that rejects them. *)
Ltac drop_loops pub iso :=
  rewrite ?List.filter_app, ?flat_map_app, ?forallb_app;
  rewrite ?(filter_imap_none _ _ pub), ?(filter_imap_none _ _ iso) by reflexivity;
  rewrite ?(flat_map_imap_nil _ _ pub), ?(flat_map_imap_nil _ _ iso) by reflexivity;
  rewrite ?(forallb_imap _ _ pub), ?(forallb_imap _ _ iso) by reflexivity;
  cbn [app].

Lemma declared_stacks penv pub iso :
  stacks (declared penv pub iso)
  = ["LabInfraNetworkStack"; "LabInfraFargateServiceStack"; "LabInfraPipelineStack"].
Proof.
  rewrite declared_split. unfold stacks, constructs. drop_loops pub iso.
  abstract_env penv. vm_compute. reflexivity.
Qed.

Lemma declared_stack_envs penv pub iso :
  stack_envs (declared penv pub iso)
  = replicate 3 (VObj [
      ("account", match penv !! "CDK_DEFAULT_ACCOUNT" with
                  | Some s => VStr s
                  | None => VUndef
                  end);
      ("region", VStr match penv !! "CDK_DEFAULT_REGION" with
                      | Some s => if String.eqb s EmptyString then "ap-northeast-1" else s
                      | None => "ap-northeast-1"
                      end) ]).
Proof.
  rewrite declared_split. unfold stack_envs, prop_values, constructs.
  drop_loops pub iso.
  match goal with |- _ = replicate 3 ?e =>
    replace e with (VObj [("account", env_var penv "CDK_DEFAULT_ACCOUNT");
                          ("region", js_or (env_var penv "CDK_DEFAULT_REGION")
                                           (VStr "ap-northeast-1"))])
  end.
  - abstract_env penv. vm_compute. reflexivity.
  - unfold env_var, js_or.
    destruct (penv !! "CDK_DEFAULT_REGION") as [s|]; [|reflexivity].
    cbn [truthy]. destruct (String.eqb s EmptyString); reflexivity.
Qed.

(** ** Replay against an arbitrary framework *)

Lemma rejected_permissive (served t : list call) : rejected (λ _ _, true) served t = None.
Proof.
  revert served. induction t as [|c t IH]; intros served; simpl; [reflexivity | apply IH].
Qed.

(** The call a replay stops at was rejected after exactly the calls
    completed before it, and is one of the calls replayed. *)
Lemma rejected_spec (ok : list call → call → bool) (served t : list call) (c : call) :
  rejected ok served t = Some c →
  ok (served ++ completed ok served t) c = false ∧ In c t.
Proof.
  revert served. induction t as [|d t IH]; intros served; simpl; [discriminate|].
  destruct (ok served d) eqn:E.
  - intros H. destruct (IH _ H) as [H1 H2].
    rewrite <- app_assoc in H1. auto.
  - intros [= <-]. rewrite app_nil_r. auto.
Qed.

(** Against any framework the program replays its declared calls. *)
Lemma lab_infra_replay penv ok pub iso :
  ∃ r, lab_infra penv {| accepts := ok; publicSubnets := pub; isolatedSubnets := iso |} []
       = replay ok [] r (declared penv pub iso).
Proof.
  destruct (straight_lab_infra penv pub iso) as (a & t & H).
  exists a.
  assert (declared penv pub iso = t) as ->; [|apply H].
  unfold declared, permissive. rewrite (H (λ _ _, true)).
  unfold replay. cbn [snd]. apply completed_all, rejected_permissive.
Qed.

(** ** The provider's checks reject malformed parameters *)

Example parse_cidr_vpc : parse_cidr "10.0.0.0/16" = Some ([10; 0; 0; 0]%Z, 16%Z).
Proof. reflexivity. Qed.

Example parse_cidr_rejects :
  parse_cidr "10.0.0/16" = None ∧ parse_cidr "10.0.0.256/16" = None
  ∧ parse_cidr "10.0.0.0/33" = None ∧ parse_cidr "10.0.0.0" = None
  ∧ parse_cidr "10.0.0.x/16" = None.
Proof. repeat split; reflexivity. Qed.

Example task_size_rejects :
  task_size_valid (VObj [("cpu", VNum 256); ("memoryLimitMiB", VNum 4096)]) = false.
Proof. reflexivity. Qed.

Example declared_sample_length :
  length (declared sample_env_dev [public_a; public_c] [isolated_a; isolated_c]) = 81%nat.
Proof. vm_compute. reflexivity. Qed.

Example declared_sample_outputs :
  outputs networkPath (declared sample_env_dev [public_a; public_c] [isolated_a])
  = [ ("VpcId", "LabInfra-VpcId"); ("VpcCidr", "LabInfra-VpcCidr");
      ("PublicSubnet1Id", "LabInfra-PublicSubnet1Id");
      ("PublicSubnet2Id", "LabInfra-PublicSubnet2Id");
      ("PrivateSubnet1Id", "LabInfra-PrivateSubnet1Id") ].
Proof. vm_compute. reflexivity. Qed.

Example isolated_output_sample :
  isolatedSubnetOutput networkPath isolated_c 1
  = Construct "cdk.CfnOutput" ["LabInfraNetworkStack"] "PrivateSubnet2Id" (VObj [
      ("value", VStr "subnet-0c22");
      ("description", VStr "プライベートサブネット2のID (AZ: ap-northeast-1c)");
      ("exportName", VStr "LabInfra-PrivateSubnet2Id") ]).
Proof. vm_compute. reflexivity. Qed.

(** ** The subnets can be read back from the declared calls *)

(** The outputs of each loop are recovered from the declared calls. *)
Lemma loop_outputs penv pub iso :
  List.filter is_public_output (declared penv pub iso)
  = imap (λ i x, publicSubnetOutput networkPath x i) pub
  ∧ List.filter is_isolated_output (declared penv pub iso)
    = imap (λ i x, isolatedSubnetOutput networkPath x i) iso.
Proof.
  rewrite declared_split, !List.filter_app.
  rewrite (filter_imap_all is_public_output _ pub),
          (filter_imap_none is_public_output _ iso),
          (filter_imap_none is_isolated_output _ pub),
          (filter_imap_all is_isolated_output _ iso) by reflexivity.
  assert (List.filter is_public_output (before_loops penv) = []
          ∧ List.filter is_public_output (after_loops penv) = []
          ∧ List.filter is_isolated_output (before_loops penv) = []
          ∧ List.filter is_isolated_output (after_loops penv) = []) as (-> & -> & -> & ->)
    by (abstract_env penv; vm_compute; repeat split; reflexivity).
  rewrite !app_nil_r. split; reflexivity.
Qed.

Lemma imap_inj {A B} (f : nat → A → B) (l1 l2 : list A) :
  (∀ i x y, f i x = f i y → x = y) → imap f l1 = imap f l2 → l1 = l2.
Proof.
  revert f l2. induction l1 as [|x l1 IH]; intros f [|y l2] Hf H; simpl in H;
    try discriminate; [reflexivity|].
  injection H as Hx Hl. f_equal; [exact (Hf _ _ _ Hx)|].
  apply (IH (f ∘ S)); [|exact Hl]. intros i a b. apply Hf.
Qed.

(** A subnet is determined by the output made for it: its id is the
    value and its zone is part of the description. *)
Lemma subnet_of_description (pre mid : string) (i : nat) (x y : Subnet) :
  subnetId x = subnetId y →
  pre +:+ pretty (i + 1)%nat +:+ mid +:+ availabilityZone x +:+ ")"
  = pre +:+ pretty (i + 1)%nat +:+ mid +:+ availabilityZone y +:+ ")" →
  x = y.
Proof.
  intros Hid H.
  apply (inj (String.app pre)), (inj (String.app _)), (inj (String.app mid)) in H.
  apply append_inj_r in H.
  destruct x, y; simpl in *; subst; reflexivity.
Qed.

Lemma publicSubnetOutput_inj here i x y :
  publicSubnetOutput here x i = publicSubnetOutput here y i → x = y.
Proof.
  intros H.
  assert (Hv := f_equal (λ c, str_of (field "value" (props_of c))) H).
  assert (Hd := f_equal (λ c, str_of (field "description" (props_of c))) H).
  exact (subnet_of_description _ _ i x y Hv Hd).
Qed.

Lemma isolatedSubnetOutput_inj here i x y :
  isolatedSubnetOutput here x i = isolatedSubnetOutput here y i → x = y.
Proof.
  intros H.
  assert (Hv := f_equal (λ c, str_of (field "value" (props_of c))) H).
  assert (Hd := f_equal (λ c, str_of (field "description" (props_of c))) H).
  exact (subnet_of_description _ _ i x y Hv Hd).
Qed.

(** * Properties of the declared configuration *)

(** C1. The only relation between stacks is declared while the
    construct tree is built.  Collecting, for every call made on behalf
    of a stack, the constructs of other stacks it is handed, the only pair
    that occurs is (LabInfraFargateServiceStack, LabInfraNetworkStack): the
    Fargate stack receives the network stack's Vpc as its [vpc] property,
    and the one [addDependency] call makes the Fargate stack depend on the
    network stack.  The Deploy stage of the pipeline deploys
    LabInfraNetworkStack with runOrder 1 and LabInfraFargateServiceStack
    with runOrder 2. *)
Theorem stack_dependency penv pub iso :
  let t := declared penv pub iso in
  remove_dups (stack_dependencies t)
    = [ ("LabInfraFargateServiceStack", "LabInfraNetworkStack") ]
  ∧ List.filter (is_invoke "addDependency") t
    = [ Invoke (VConstruct fargatePath) "addDependency" [VConstruct networkPath] ]
  ∧ map (λ c, (id_of c, field "vpc" (props_of c))) (constructs "cdk.Stack" t)
    = [ ("LabInfraNetworkStack", VUndef);
        ("LabInfraFargateServiceStack", VConstruct (networkPath ++ ["LabInfraVpc"]));
        ("LabInfraPipelineStack", VUndef) ]
  ∧ stage_order "Deploy" t
    = [ ("LabInfraNetworkStack", 1%Z); ("LabInfraFargateServiceStack", 2%Z) ].
Proof.
  intros t. subst t. rewrite declared_split.
  unfold stack_dependencies, stage_order, constructs. drop_loops pub iso.
  concrete_env penv; vm_compute; repeat split; reflexivity.
Qed.

(** C2. Running the app builds exactly three stacks, in this order:
    LabInfraNetworkStack, LabInfraFargateServiceStack and
    LabInfraPipelineStack.  Apart from its outputs the network stack holds
    the Vpc; the Fargate stack holds a log group, the ECS cluster, two
    roles, the Fargate task definition, a security group and the Fargate
    service; the pipeline stack holds two S3 buckets, two roles, the
    CodeBuild project and the CodePipeline.  Every construct is made by a
    framework constructor that receives an object literal. *)
Theorem three_stacks penv pub iso :
  let t := declared penv pub iso in
  stacks t = ["LabInfraNetworkStack"; "LabInfraFargateServiceStack"; "LabInfraPipelineStack"]
  ∧ resources networkPath t = [("ec2.Vpc", "LabInfraVpc")]
  ∧ resources fargatePath t =
      [ ("logs.LogGroup", "LabInfraLogGroup");
        ("ecs.Cluster", "LabInfraCluster");
        ("iam.Role", "LabInfraTaskExecutionRole");
        ("iam.Role", "LabInfraTaskRole");
        ("ecs.FargateTaskDefinition", "LabInfraTaskDefinition");
        ("ec2.SecurityGroup", "LabInfraSecurityGroup");
        ("ecs.FargateService", "LabInfraService") ]
  ∧ resources pipelinePath t =
      [ ("s3.Bucket", "LabInfraSourceBucket");
        ("s3.Bucket", "LabInfraArtifactBucket");
        ("iam.Role", "LabInfraCodeBuildRole");
        ("codebuild.Project", "LabInfraBuildProject");
        ("iam.Role", "LabInfraPipelineRole");
        ("codepipeline.Pipeline", "LabInfraPipeline") ]
  ∧ forallb has_parameter_object t = true.
Proof.
  intros t. subst t. split; [apply declared_stacks|].
  rewrite declared_split. unfold resources. drop_loops pub iso.
  abstract_env penv. vm_compute.
  repeat split; reflexivity.
Qed.

(** C3. Each stack declares a fixed set of named outputs.  The network
    stack: VpcId, VpcCidr, then PublicSubnet<i>Id for the i-th public
    subnet and PrivateSubnet<i>Id for the i-th isolated subnet (i from 1).
    The Fargate stack: ClusterName, ClusterArn, ServiceName, ServiceArn,
    TaskDefinitionArn, LogGroupName.  The pipeline stack: PipelineName,
    PipelineArn, SourceBucketName, BuildProjectName.  There are no other
    outputs, every exportName starts with LabInfra- and no two outputs
    share an exportName.  Each output carries an identifier of a resource
    of its own stack: the id and the address block of the Vpc and the id
    of each subnet; the name and ARN of the cluster and of the service,
    the ARN of the task definition and the name of the log group; the
    name and ARN of the pipeline, the name of the source bucket and the
    name of the build project. *)
Theorem named_outputs penv pub iso :
  let t := declared penv pub iso in
  outputs networkPath t =
    [ ("VpcId", "LabInfra-VpcId"); ("VpcCidr", "LabInfra-VpcCidr") ]
    ++ imap (λ i _, ("PublicSubnet" +:+ pretty (i + 1)%nat +:+ "Id",
                     "LabInfra-PublicSubnet" +:+ pretty (i + 1)%nat +:+ "Id")) pub
    ++ imap (λ i _, ("PrivateSubnet" +:+ pretty (i + 1)%nat +:+ "Id",
                     "LabInfra-PrivateSubnet" +:+ pretty (i + 1)%nat +:+ "Id")) iso
  ∧ outputs fargatePath t =
      [ ("ClusterName", "LabInfra-ClusterName"); ("ClusterArn", "LabInfra-ClusterArn");
        ("ServiceName", "LabInfra-ServiceName"); ("ServiceArn", "LabInfra-ServiceArn");
        ("TaskDefinitionArn", "LabInfra-TaskDefinitionArn");
        ("LogGroupName", "LabInfra-LogGroupName") ]
  ∧ outputs pipelinePath t =
      [ ("PipelineName", "LabInfra-PipelineName"); ("PipelineArn", "LabInfra-PipelineArn");
        ("SourceBucketName", "LabInfra-SourceBucketName");
        ("BuildProjectName", "LabInfra-BuildProjectName") ]
  ∧ length (constructs "cdk.CfnOutput" t) = (12 + length pub + length iso)%nat
  ∧ Forall (λ name, starts_with "LabInfra-" name = true) (export_names t)
  ∧ NoDup (export_names t)
  ∧ output_values networkPath t =
      [ ("VpcId", VGet (VConstruct (networkPath ++ ["LabInfraVpc"])) "vpcId");
        ("VpcCidr", VGet (VConstruct (networkPath ++ ["LabInfraVpc"])) "vpcCidrBlock") ]
      ++ imap (λ i x, ("PublicSubnet" +:+ pretty (i + 1)%nat +:+ "Id",
                       VStr (subnetId x))) pub
      ++ imap (λ i x, ("PrivateSubnet" +:+ pretty (i + 1)%nat +:+ "Id",
                       VStr (subnetId x))) iso
  ∧ output_values fargatePath t =
      [ ("ClusterName",
         VGet (VConstruct (fargatePath ++ ["LabInfraCluster"])) "clusterName");
        ("ClusterArn",
         VGet (VConstruct (fargatePath ++ ["LabInfraCluster"])) "clusterArn");
        ("ServiceName",
         VGet (VConstruct (fargatePath ++ ["LabInfraService"])) "serviceName");
        ("ServiceArn",
         VGet (VConstruct (fargatePath ++ ["LabInfraService"])) "serviceArn");
        ("TaskDefinitionArn",
         VGet (VConstruct (fargatePath ++ ["LabInfraTaskDefinition"])) "taskDefinitionArn");
        ("LogGroupName",
         VGet (VConstruct (fargatePath ++ ["LabInfraLogGroup"])) "logGroupName") ]
  ∧ output_values pipelinePath t =
      [ ("PipelineName",
         VGet (VConstruct (pipelinePath ++ ["LabInfraPipeline"])) "pipelineName");
        ("PipelineArn",
         VGet (VConstruct (pipelinePath ++ ["LabInfraPipeline"])) "pipelineArn");
        ("SourceBucketName",
         VGet (VConstruct (pipelinePath ++ ["LabInfraSourceBucket"])) "bucketName");
        ("BuildProjectName",
         VGet (VConstruct (pipelinePath ++ ["LabInfraBuildProject"])) "projectName") ]
  ∧ map (λ c, (class_of c, id_of c))
        (List.filter (λ c, has_kind ConstructorWithObject c
                           && existsb (list_eqb (scope_of c ++ [id_of c]))
                                [ networkPath ++ ["LabInfraVpc"];
                                  fargatePath ++ ["LabInfraCluster"];
                                  fargatePath ++ ["LabInfraService"];
                                  fargatePath ++ ["LabInfraTaskDefinition"];
                                  fargatePath ++ ["LabInfraLogGroup"];
                                  pipelinePath ++ ["LabInfraPipeline"];
                                  pipelinePath ++ ["LabInfraSourceBucket"];
                                  pipelinePath ++ ["LabInfraBuildProject"] ]) t)
    = [ ("ec2.Vpc", "LabInfraVpc"); ("logs.LogGroup", "LabInfraLogGroup");
        ("ecs.Cluster", "LabInfraCluster");
        ("ecs.FargateTaskDefinition", "LabInfraTaskDefinition");
        ("ecs.FargateService", "LabInfraService");
        ("s3.Bucket", "LabInfraSourceBucket");
        ("codebuild.Project", "LabInfraBuildProject");
        ("codepipeline.Pipeline", "LabInfraPipeline") ].
Proof.
  intros t. subst t. rewrite declared_split.
  unfold outputs, output_values, export_names, constructs.
  rewrite !List.filter_app.
  rewrite !(filter_imap_none (λ c, in_scope fargatePath c && is_output c)),
          !(filter_imap_none (λ c, in_scope pipelinePath c && is_output c)),
          !(filter_imap_all (λ c, in_scope networkPath c && is_output c)),
          !(filter_imap_all (is_construct "cdk.CfnOutput")),
          !(filter_imap_none _ _ pub), !(filter_imap_none _ _ iso) by reflexivity.
  rewrite !map_app, !length_app, !length_imap, !fmap_imap.
  destruct (fixed_exports penv) as [-> ->].
  split; [|split; [|split; [|split; [|split; [|split; [|split; [|split; [|split]]]]]]]].
  - abstract_env penv. vm_compute List.filter. cbn [map app]. rewrite app_nil_r.
    reflexivity.
  - abstract_env penv. vm_compute. reflexivity.
  - abstract_env penv. vm_compute. reflexivity.
  - replace (length (List.filter (is_construct "cdk.CfnOutput") (before_loops penv)))
      with 2%nat by (abstract_env penv; vm_compute; reflexivity).
    replace (length (List.filter (is_construct "cdk.CfnOutput") (after_loops penv)))
      with 10%nat by (abstract_env penv; vm_compute; reflexivity).
    lia.
  - rewrite !Forall_app. repeat split.
    + repeat constructor.
    + apply Forall_imap. reflexivity.
    + apply Forall_imap. reflexivity.
    + repeat constructor.
  - apply NoDup_families.
    + apply (bool_decide_unpack _). vm_compute. reflexivity.
    + apply (bool_decide_unpack _). vm_compute. reflexivity.
    + apply NoDup_imap_inj. intros i j x y. apply subnet_name_inj.
    + apply Forall_imap. reflexivity.
    + apply NoDup_imap_inj. intros i j x y. apply subnet_name_inj.
    + apply Forall_imap. reflexivity.
  - abstract_env penv. vm_compute List.filter. cbn [map app]. rewrite app_nil_r.
    reflexivity.
  - abstract_env penv. vm_compute. reflexivity.
  - abstract_env penv. vm_compute. reflexivity.
  - abstract_env penv. vm_compute. reflexivity.
Qed.

(** C4, counterexample.  Which constructor calls are made depends on
    data: when the Vpc has two public and two isolated subnets the
    program makes CfnOutput calls that it does not make when the Vpc has
    one of each.  A parameter is chosen by a conditional: with
    CDK_DEFAULT_REGION set to the empty string the stacks do not receive
    that value but ap-northeast-1.  And not every call is a constructor
    call with an object literal: seven constructors are given a string or
    nothing, thirteen calls are static factory calls and nineteen are
    method calls, such as the one that adds the ingress rule. *)
Lemma not_a_flat_sequence :
  map shape (declared ∅ [public_a; public_c] [isolated_a; isolated_c])
    ≠ map shape (declared ∅ [public_a] [isolated_a])
  ∧ env_var sample_env_empty_region "CDK_DEFAULT_REGION" = VStr EmptyString
  ∧ region_params (declared sample_env_empty_region [] [])
    = [VStr "ap-northeast-1"; VStr "ap-northeast-1"; VStr "ap-northeast-1"]
  ∧ List.filter (has_kind ConstructorOther) (declared ∅ [public_a] [isolated_a])
    = [ New "cdk.App" [];
        New "iam.ServicePrincipal" [VStr "ecs-tasks.amazonaws.com"];
        New "iam.ServicePrincipal" [VStr "ecs-tasks.amazonaws.com"];
        New "iam.ServicePrincipal" [VStr "codebuild.amazonaws.com"];
        New "iam.ServicePrincipal" [VStr "codepipeline.amazonaws.com"];
        New "codepipeline.Artifact" [VStr "SourceOutput"];
        New "codepipeline.Artifact" [VStr "BuildOutput"] ]
  ∧ count_kind StaticFactory (declared ∅ [public_a] [isolated_a]) = 13%nat
  ∧ count_kind MethodCall (declared ∅ [public_a] [isolated_a]) = 19%nat
  ∧ List.filter (is_invoke "addIngressRule") (declared ∅ [public_a] [isolated_a])
    = [ Invoke (VConstruct (fargatePath ++ ["LabInfraSecurityGroup"])) "addIngressRule"
          [ VStatic "ec2.Peer" "anyIpv4" [];
            VStatic "ec2.Port" "tcp" [VNum 80];
            VStr "HTTP traffic from anywhere" ] ].
Proof.
  split.
  { intros H. apply (f_equal length) in H. vm_compute in H. discriminate. }
  vm_compute. repeat split; reflexivity.
Qed.

(** C4, amended.  Outside two loops and one conditional the program is a
    flat sequence of calls into the framework.  Every execution makes the
    same five calls, then one CfnOutput per public subnet of the Vpc,
    then one CfnOutput per isolated subnet, then the same 72 calls; what
    is called in the fixed parts does not depend on the environment.  Of
    the 77 fixed calls 38 are constructor calls given an object literal,
    7 are constructor calls given a string or nothing, 13 are static
    factory calls and 19 are method calls; the calls of the loops are
    constructor calls given an object literal, and every construct is
    made with an object literal.  The region handed to the three stacks
    is CDK_DEFAULT_REGION, or ap-northeast-1 when that variable is unset
    or empty. *)
Theorem flat_outside_loops penv pub iso :
  declared penv pub iso =
    before_loops penv
    ++ imap (λ i x, publicSubnetOutput networkPath x i) pub
    ++ imap (λ i x, isolatedSubnetOutput networkPath x i) iso
    ++ after_loops penv
  ∧ map shape (before_loops penv) = map shape (before_loops ∅)
  ∧ map shape (after_loops penv) = map shape (after_loops ∅)
  ∧ length (before_loops penv) = 5%nat
  ∧ length (after_loops penv) = 72%nat
  ∧ region_params (declared penv pub iso) =
      replicate 3 (VStr match penv !! "CDK_DEFAULT_REGION" with
                        | Some s => if String.eqb s EmptyString then "ap-northeast-1" else s
                        | None => "ap-northeast-1"
                        end)
  ∧ map kind_of (before_loops penv ++ after_loops penv)
    = map kind_of (before_loops ∅ ++ after_loops ∅)
  ∧ count_kind ConstructorWithObject (before_loops penv ++ after_loops penv) = 38%nat
  ∧ count_kind ConstructorOther (before_loops penv ++ after_loops penv) = 7%nat
  ∧ count_kind StaticFactory (before_loops penv ++ after_loops penv) = 13%nat
  ∧ count_kind MethodCall (before_loops penv ++ after_loops penv) = 19%nat
  ∧ forallb (has_kind ConstructorWithObject)
            (imap (λ i x, publicSubnetOutput networkPath x i) pub
             ++ imap (λ i x, isolatedSubnetOutput networkPath x i) iso) = true
  ∧ forallb has_parameter_object (declared penv pub iso) = true.
Proof.
  split; [apply declared_split|].
  split; [abstract_env penv; vm_compute; reflexivity|].
  split; [abstract_env penv; vm_compute; reflexivity|].
  split; [abstract_env penv; vm_compute; reflexivity|].
  split; [abstract_env penv; vm_compute; reflexivity|].
  split; [unfold region_params; rewrite declared_stack_envs; reflexivity|].
  split; [abstract_env penv; vm_compute; reflexivity|].
  split; [abstract_env penv; vm_compute; reflexivity|].
  split; [abstract_env penv; vm_compute; reflexivity|].
  split; [abstract_env penv; vm_compute; reflexivity|].
  split; [abstract_env penv; vm_compute; reflexivity|].
  split.
  - rewrite forallb_app, !forallb_imap by reflexivity. reflexivity.
  - rewrite declared_split. drop_loops pub iso.
    abstract_env penv. vm_compute. reflexivity.
Qed.

(** C5. The program has no error handling of its own.  Against any
    framework, even one whose answers depend on the calls it has already
    served, the run either completes or fails with the error of the first
    framework call that threw, having made exactly the declared calls
    before that one; it never raises an error itself and never continues
    after a throw.  When the framework accepts every declared call in
    turn, the run completes with all declared calls made, the three
    stacks among them. *)
Theorem no_error_handling penv fw :
  let t := declared penv (publicSubnets fw) (isolatedSubnets fw) in
  match fst (lab_infra penv fw []) with
  | Done _ => True
  | Failed (FrameworkThrew c) =>
      accepts fw (snd (lab_infra penv fw [])) c = false ∧ In c t
  | Failed (Raised _) => False
  end
  ∧ snd (lab_infra penv fw []) = completed (accepts fw) [] t
  ∧ (rejected (accepts fw) [] t = None →
     ∃ r, lab_infra penv fw [] = (Done r, t)
          ∧ stacks t = ["LabInfraNetworkStack"; "LabInfraFargateServiceStack";
                        "LabInfraPipelineStack"]).
Proof.
  destruct fw as [ok pub iso]. cbn [accepts publicSubnets isolatedSubnets].
  destruct (lab_infra_replay penv ok pub iso) as (r & ->).
  set (t := declared penv pub iso).
  unfold replay. cbn [fst snd]. split; [|split].
  - destruct (rejected ok [] t) as [c|] eqn:E; [|exact I].
    exact (rejected_spec ok [] t c E).
  - reflexivity.
  - intros Hall. exists r.
    rewrite Hall, (completed_all ok [] t Hall).
    split; [reflexivity|]. apply declared_stacks.
Qed.

Lemma no_error_handling_witness :
  rejected (accepts (permissive [public_a; public_c] [isolated_a; isolated_c])) []
           (declared ∅ [public_a; public_c] [isolated_a; isolated_c]) = None
  ∧ ∃ r, lab_infra ∅ (permissive [public_a; public_c] [isolated_a; isolated_c]) []
         = (Done r, declared ∅ [public_a; public_c] [isolated_a; isolated_c])
         ∧ stacks (declared ∅ [public_a; public_c] [isolated_a; isolated_c])
           = ["LabInfraNetworkStack"; "LabInfraFargateServiceStack";
              "LabInfraPipelineStack"].
Proof.
  split; [vm_compute; reflexivity|].
  apply (proj2 (proj2 (no_error_handling ∅ (permissive [public_a; public_c] [isolated_a; isolated_c])))).
  vm_compute. reflexivity.
Defined.

(** C6. The declared parameters pass the provider's checks.  The Vpc's
    address block 10.0.0.0/16 is a syntactically valid CIDR with prefix
    length 16, and both subnet groups have cidrMask 24, a prefix length
    between that of the Vpc and 32.  The Fargate task definition has cpu
    256 and memoryLimitMiB 512, one of the memory sizes 512, 1024, 2048
    allowed for cpu 256.  The one container, added to that task
    definition, has memoryLimitMiB 512, which does not exceed the task's
    limit. *)
Theorem provider_invariants penv pub iso :
  let t := declared penv pub iso in
  prop_values "ec2.Vpc" "cidr" t = [VStr "10.0.0.0/16"]
  ∧ parse_cidr "10.0.0.0/16" = Some ([10; 0; 0; 0]%Z, 16%Z)
  ∧ map (map (field "cidrMask") ∘ items) (prop_values "ec2.Vpc" "subnetConfiguration" t)
      = [[VNum 24; VNum 24]]
  ∧ forallb vpc_props_valid (map props_of (constructs "ec2.Vpc" t)) = true
  ∧ prop_values "ecs.FargateTaskDefinition" "cpu" t = [VNum 256]
  ∧ prop_values "ecs.FargateTaskDefinition" "memoryLimitMiB" t = [VNum 512]
  ∧ allowed_memory 256 = [512; 1024; 2048]%Z
  ∧ forallb task_size_valid (map props_of (constructs "ecs.FargateTaskDefinition" t)) = true
  ∧ ∃ task limit, task_limits t = [(task, limit)]
      ∧ container_limits t = [(task, 512%Z)] ∧ (512 <= limit)%Z.
Proof.
  intros t. subst t. rewrite declared_split.
  unfold task_limits, container_limits, prop_values, constructs. drop_loops pub iso.
  abstract_env penv. vm_compute.
  repeat split; try reflexivity.
  eexists _, _. repeat split; try reflexivity. discriminate.
Qed.

(** C7, counterexample.  Two runs in the same environment do not declare
    the same configuration when the framework's Vpc reports different
    subnets: the subnet's id and zone are parameters of its output. *)
Lemma same_environment_different_subnets :
  declared sample_env_dev [public_a] [isolated_a]
  ≠ declared sample_env_dev [public_c] [isolated_c].
Proof.
  intros H.
  apply (f_equal (List.filter is_public_output)) in H.
  rewrite (proj1 (loop_outputs _ _ _)), (proj1 (loop_outputs _ _ _)) in H.
  apply imap_inj in H; [discriminate|].
  intros i x y. apply publicSubnetOutput_inj.
Qed.

(** C7, amended.  Construction is a single sequential pass: against any
    framework the program is a replay of one call sequence, so the calls
    it completes are a prefix of that sequence in order, and running it
    twice in a row makes the same calls twice, nothing being kept from
    the first run.  For two runs whose environments agree on
    CDK_DEFAULT_ACCOUNT and CDK_DEFAULT_REGION, whatever else the
    environments hold: the declared configuration (every call and every
    parameter value) is identical exactly when the framework's Vpc
    reports the same public and the same isolated subnets in both runs;
    and against frameworks that report the same subnets and accept the
    same calls, the runs end in the same outcome after the same calls. *)
Theorem same_environment_same_configuration (penv1 penv2 : gmap string string) :
  penv1 !! "CDK_DEFAULT_ACCOUNT" = penv2 !! "CDK_DEFAULT_ACCOUNT" →
  penv1 !! "CDK_DEFAULT_REGION" = penv2 !! "CDK_DEFAULT_REGION" →
  (∀ fw served, lab_infra penv1 fw served = lab_infra penv2 fw served)
  ∧ (∀ fw, declared penv1 (publicSubnets fw) (isolatedSubnets fw)
           = declared penv2 (publicSubnets fw) (isolatedSubnets fw))
  ∧ straight (lab_infra penv1)
  ∧ (∀ pub1 iso1 pub2 iso2,
       declared penv1 pub1 iso1 = declared penv2 pub2 iso2 ↔ pub1 = pub2 ∧ iso1 = iso2)
  ∧ (∀ fw1 fw2,
       publicSubnets fw1 = publicSubnets fw2 →
       isolatedSubnets fw1 = isolatedSubnets fw2 →
       (∀ served c, accepts fw1 served c = accepts fw2 served c) →
       lab_infra penv1 fw1 [] = lab_infra penv2 fw2 [])
  ∧ (∀ fw, snd (lab_infra penv1 fw [])
           = completed (accepts fw) []
               (declared penv1 (publicSubnets fw) (isolatedSubnets fw)))
  ∧ (∀ pub iso,
       snd (synth_bind (lab_infra penv1) (λ _, lab_infra penv2) (permissive pub iso) [])
       = declared penv1 pub iso ++ declared penv1 pub iso).
Proof.
  intros Ha Hr.
  assert (lab_infra penv1 = lab_infra penv2) as Heq.
  { unfold lab_infra, env_var. rewrite Ha, Hr. reflexivity. }
  assert (∀ pub iso, declared penv1 pub iso = declared penv2 pub iso) as Hd.
  { intros pub iso. unfold declared. rewrite Heq. reflexivity. }
  split; [intros fw served; rewrite Heq; reflexivity|].
  split; [intros fw; apply Hd|].
  split; [apply straight_lab_infra|].
  split; [|split; [|split]].
  - intros pub1 iso1 pub2 iso2. split.
    + intros H. split.
      * apply (f_equal (List.filter is_public_output)) in H.
        rewrite (proj1 (loop_outputs _ _ _)), (proj1 (loop_outputs _ _ _)) in H.
        apply imap_inj in H; [exact H|].
        intros i x y. apply publicSubnetOutput_inj.
      * apply (f_equal (List.filter is_isolated_output)) in H.
        rewrite (proj2 (loop_outputs _ _ _)), (proj2 (loop_outputs _ _ _)) in H.
        apply imap_inj in H; [exact H|].
        intros i x y. apply isolatedSubnetOutput_inj.
    + intros [-> ->]. apply Hd.
  - intros [ok1 pub1 iso1] [ok2 pub2 iso2]. cbn [publicSubnets isolatedSubnets accepts].
    intros -> -> Hok.
    destruct (straight_lab_infra penv1 pub2 iso2) as (a & t & H).
    rewrite <- Heq, !H. unfold replay.
    assert (∀ served, rejected ok1 served t = rejected ok2 served t
                      ∧ completed ok1 served t = completed ok2 served t) as Hrc.
    { clear H. induction t as [|c t IH]; intros served; simpl; [split; reflexivity|].
      rewrite Hok. destruct (ok2 served c); [|split; reflexivity].
      destruct (IH (served ++ [c])) as [-> ->]. split; reflexivity. }
    destruct (Hrc []) as [-> ->]. reflexivity.
  - intros [ok pub iso]. cbn [publicSubnets isolatedSubnets accepts].
    destruct (lab_infra_replay penv1 ok pub iso) as (r & ->). reflexivity.
  - intros pub iso. rewrite <- Heq.
    destruct (lab_infra_runs penv1) as (t1 & t2 & _ & Hruns).
    destruct (Hruns pub iso) as (r & Hrun).
    unfold declared, synth_bind. rewrite !Hrun. reflexivity.
Qed.

Lemma same_environment_same_configuration_witness :
  sample_env_dev ≠ sample_env_ci
  ∧ sample_env_dev !! "CDK_DEFAULT_ACCOUNT" = sample_env_ci !! "CDK_DEFAULT_ACCOUNT"
  ∧ sample_env_dev !! "CDK_DEFAULT_REGION" = sample_env_ci !! "CDK_DEFAULT_REGION"
  ∧ declared sample_env_dev [public_a; public_c] [isolated_a; isolated_c]
    = declared sample_env_ci [public_a; public_c] [isolated_a; isolated_c]
  ∧ lab_infra sample_env_dev (permissive [public_a; public_c] [isolated_a; isolated_c]) []
    = lab_infra sample_env_ci (permissive [public_a; public_c] [isolated_a; isolated_c]) [].
Proof.
  assert (sample_env_dev !! "CDK_DEFAULT_ACCOUNT" = sample_env_ci !! "CDK_DEFAULT_ACCOUNT")
    as Ha by (vm_compute; reflexivity).
  assert (sample_env_dev !! "CDK_DEFAULT_REGION" = sample_env_ci !! "CDK_DEFAULT_REGION")
    as Hr by (vm_compute; reflexivity).
  split.
  { intros H. apply (f_equal (λ m : gmap string string, m !! "CI")) in H.
    vm_compute in H. discriminate. }
  split; [exact Ha|]. split; [exact Hr|].
  destruct (same_environment_same_configuration sample_env_dev sample_env_ci Ha Hr)
    as (Hrun & Hdecl & _).
  split.
  - exact (Hdecl (permissive [public_a; public_c] [isolated_a; isolated_c])).
  - apply Hrun.
Defined.

(** C8. All three stacks receive the same [env].  Its region is
    CDK_DEFAULT_REGION, or ap-northeast-1 when that variable is unset or
    empty; its account is CDK_DEFAULT_ACCOUNT, or [undefined] when that
    variable is unset. *)
Theorem region_default penv pub iso :
  let env := VObj [
    ("account", match penv !! "CDK_DEFAULT_ACCOUNT" with
                | Some s => VStr s
                | None => VUndef
                end);
    ("region", VStr match penv !! "CDK_DEFAULT_REGION" with
                    | Some s => if String.eqb s EmptyString then "ap-northeast-1" else s
                    | None => "ap-northeast-1"
                    end) ] in
  stacks (declared penv pub iso)
    = ["LabInfraNetworkStack"; "LabInfraFargateServiceStack"; "LabInfraPipelineStack"]
  ∧ stack_envs (declared penv pub iso) = [env; env; env].
Proof.
  intros env. split; [apply declared_stacks | apply declared_stack_envs].
Qed.

(** C9. The program adds exactly one ingress rule, to the security group
    of the Fargate service: TCP port 80 from any IPv4 address.  The only
    port it names is TCP 80 (so 443 is not opened) and the only peer is
    anyIpv4.  The one security group it builds allows all outbound
    traffic and is the security group of the Fargate service. *)
Theorem single_ingress_rule penv pub iso :
  let t := declared penv pub iso in
  List.filter (is_invoke "addIngressRule") t =
    [ Invoke (VConstruct (fargatePath ++ ["LabInfraSecurityGroup"])) "addIngressRule"
        [ VStatic "ec2.Peer" "anyIpv4" [];
          VStatic "ec2.Port" "tcp" [VNum 80];
          VStr "HTTP traffic from anywhere" ] ]
  ∧ List.filter (is_static "ec2.Port") t = [ Static "ec2.Port" "tcp" [VNum 80] ]
  ∧ List.filter (is_static "ec2.Peer") t = [ Static "ec2.Peer" "anyIpv4" [] ]
  ∧ map id_of (constructs "ec2.SecurityGroup" t) = ["LabInfraSecurityGroup"]
  ∧ prop_values "ec2.SecurityGroup" "allowAllOutbound" t = [VBool true]
  ∧ prop_values "ecs.FargateService" "securityGroups" t =
      [ VArr [VConstruct (fargatePath ++ ["LabInfraSecurityGroup"])] ].
Proof.
  intros t. subst t. rewrite declared_split.
  unfold prop_values, constructs. drop_loops pub iso.
  abstract_env penv. vm_compute. repeat split; reflexivity.
Qed.

(** C10. The Vpc is declared with zero NAT gateways and two subnet
    groups: PublicSubnet of type PUBLIC and PrivateSubnet of type
    PRIVATE_ISOLATED.  The Fargate service is placed in the subnets of
    type PUBLIC and is assigned a public IP. *)
Theorem isolated_private_subnets penv pub iso :
  let t := declared penv pub iso in
  prop_values "ec2.Vpc" "natGateways" t = [VNum 0]
  ∧ subnet_groups t =
      [ ("PublicSubnet", VMember "ec2.SubnetType.PUBLIC");
        ("PrivateSubnet", VMember "ec2.SubnetType.PRIVATE_ISOLATED") ]
  ∧ map (field "subnetType") (prop_values "ecs.FargateService" "vpcSubnets" t) =
      [ VMember "ec2.SubnetType.PUBLIC" ]
  ∧ prop_values "ecs.FargateService" "assignPublicIp" t = [VBool true].
Proof.
  intros t. subst t. rewrite declared_split.
  unfold subnet_groups, prop_values, constructs. drop_loops pub iso.
  abstract_env penv. vm_compute. repeat split; reflexivity.
Qed.

(** * Further properties *)

(** ** Helpers *)

Lemma NoDup_by_family {A} (fam : A → nat) (X P I Y : list A) :
  NoDup (X ++ Y) → Forall (λ a, fam a = 0%nat) (X ++ Y) →
  NoDup P → Forall (λ a, fam a = 1%nat) P →
  NoDup I → Forall (λ a, fam a = 2%nat) I →
  NoDup (X ++ P ++ I ++ Y).
Proof.
  rewrite !NoDup_app, !Forall_app, !Forall_forall.
  intros (HA & HAB & HB) (FA & FB) HP FP HI FI.
  repeat split; try assumption.
  - intros x Hx. rewrite !elem_of_app. intros [Hin|[Hin|Hin]].
    + apply FP in Hin. apply FA in Hx. congruence.
    + apply FI in Hin. apply FA in Hx. congruence.
    + exact (HAB x Hx Hin).
  - intros x Hx. rewrite !elem_of_app. intros [Hin|Hin].
    + apply FI in Hin. apply FP in Hx. congruence.
    + apply FB in Hin. apply FP in Hx. congruence.
  - intros x Hx Hin. apply FB in Hin. apply FI in Hx. congruence.
Qed.

Lemma flat_map_imap_singleton {A B} (g : call → list B) (h : nat → A → B)
    (f : nat → A → call) (l : list A) :
  (∀ i x, g (f i x) = [h i x]) → flat_map g (imap f l) = imap h l.
Proof.
  revert f h. induction l as [|x l IH]; intros f h Hf; simpl; [reflexivity|].
  rewrite Hf. simpl. f_equal. apply IH. intros i y. apply Hf.
Qed.

(** X1. No two constructs get the same path in the construct tree,
    however many subnets the Vpc has: every id is unique within its
    scope, the ids made by [`PublicSubnet${index + 1}Id`] and
    [`PrivateSubnet${index + 1}Id`] included. *)
Theorem construct_paths_distinct penv pub iso :
  NoDup (paths (declared penv pub iso)).
Proof.
  rewrite declared_split. unfold paths. rewrite !flat_map_app.
  rewrite (flat_map_imap_singleton built_by
             (λ i _, networkPath ++ ["PublicSubnet" +:+ pretty (i + 1)%nat +:+ "Id"]))
    by reflexivity.
  rewrite (flat_map_imap_singleton built_by
             (λ i _, networkPath ++ ["PrivateSubnet" +:+ pretty (i + 1)%nat +:+ "Id"]))
    by reflexivity.
  apply (NoDup_by_family path_family).
  - abstract_env penv. apply (bool_decide_unpack _). vm_compute. reflexivity.
  - abstract_env penv. apply (bool_decide_unpack _). vm_compute. reflexivity.
  - apply NoDup_imap_inj. intros i j x y H. 
    apply (inj (app networkPath)) in H. injection H as H.
    exact (subnet_name_inj _ _ _ H).
  - apply Forall_imap. reflexivity.
  - apply NoDup_imap_inj. intros i j x y H.
    apply (inj (app networkPath)) in H. injection H as H.
    exact (subnet_name_inj _ _ _ H).
  - apply Forall_imap. reflexivity.
Qed.

Lemma is_built_app_l (b b2 : list (list string)) (p : list string) :
  is_built b p = true → is_built (b ++ b2) p = true.
Proof. unfold is_built. rewrite existsb_app. intros ->. reflexivity. Qed.

Lemma well_scoped_mono (b b2 : list (list string)) (t : list call) :
  (∀ p, is_built b p = true → is_built b2 p = true) →
  well_scoped b t = true → well_scoped b2 t = true.
Proof.
  revert b b2. induction t as [|c t IH]; intros b b2 Hsub; simpl; [reflexivity|].
  rewrite !andb_true_iff. intros [Hc Ht]. split.
  - rewrite forallb_forall in *. intros p Hp. apply Hsub, Hc, Hp.
  - apply (IH (b ++ built_by c)); [|exact Ht].
    intros p. unfold is_built. rewrite !existsb_app, !orb_true_iff.
    intros [H|H]; [left; apply Hsub, H | right; exact H].
Qed.

Lemma well_scoped_app (b : list (list string)) (t1 t2 : list call) :
  well_scoped b (t1 ++ t2) = well_scoped b t1 && well_scoped (b ++ paths t1) t2.
Proof.
  revert b. induction t1 as [|c t1 IH]; intros b; simpl.
  - rewrite app_nil_r. reflexivity.
  - rewrite IH, <- andb_assoc, <- app_assoc. reflexivity.
Qed.

Lemma well_scoped_imap {A} (b b2 : list (list string)) (f : nat → A → call) (l : list A) :
  (∀ i x, forallb (is_built b) (mentions (f i x)) = true) →
  (∀ p, is_built b p = true → is_built b2 p = true) →
  well_scoped b2 (imap f l) = true.
Proof.
  revert f b2. induction l as [|x l IH]; intros f b2 Hf Hsub; simpl; [reflexivity|].
  apply andb_true_iff. split.
  - specialize (Hf 0%nat x). rewrite forallb_forall in *.
    intros p Hp. apply Hsub, Hf, Hp.
  - apply IH; [intros i y; apply Hf|].
    intros p Hp. apply is_built_app_l, Hsub, Hp.
Qed.

Lemma paths_before_loops penv :
  paths (before_loops penv)
  = [ []; networkPath; networkPath ++ ["LabInfraVpc"]; networkPath ++ ["VpcId"];
      networkPath ++ ["VpcCidr"] ].
Proof. abstract_env penv. vm_compute. reflexivity. Qed.

(** X2. Nothing is used before it is built: the scope of every construct,
    and every construct mentioned in the arguments or the receiver of a
    call, was built by an earlier call. *)
Theorem built_before_use penv pub iso :
  well_scoped [] (declared penv pub iso) = true.
Proof.
  rewrite declared_split, !well_scoped_app, !andb_true_iff.
  rewrite paths_before_loops, app_nil_l.
  set (b := [ []; networkPath; networkPath ++ ["LabInfraVpc"]; networkPath ++ ["VpcId"];
              networkPath ++ ["VpcCidr"] ]).
  repeat split.
  - concrete_env penv; vm_compute; reflexivity.
  - apply (well_scoped_imap b); [reflexivity | auto].
  - apply (well_scoped_imap b); [reflexivity | intros p; apply is_built_app_l].
  - apply (well_scoped_mono b).
    + intros p Hp. apply is_built_app_l, is_built_app_l, Hp.
    + subst b. concrete_env penv; vm_compute; reflexivity.
Qed.

Example use_before_build_rejected :
  well_scoped [[]]
    [ Construct "ecs.Cluster" ["S"] "C" (VObj [("vpc", VConstruct ["N"; "Vpc"])]) ] = false
  ∧ well_scoped [[]]
    [ Construct "cdk.Stack" [] "S" (VObj []);
      Construct "ecs.Cluster" ["S"] "C" (VObj [("vpc", VConstruct ["N"; "Vpc"])]) ] = false
  ∧ well_scoped [[]]
    [ Construct "cdk.Stack" [] "N" (VObj []);
      Construct "ec2.Vpc" ["N"] "Vpc" (VObj []);
      Construct "cdk.Stack" [] "S" (VObj []);
      Construct "ecs.Cluster" ["S"] "C" (VObj [("vpc", VConstruct ["N"; "Vpc"])]) ] = true.
Proof. repeat split; reflexivity. Qed.

Lemma find_app_split {A} (p : A → bool) (l1 l2 : list A) :
  List.find p (l1 ++ l2) =
  match List.find p l1 with Some x => Some x | None => List.find p l2 end.
Proof.
  induction l1 as [|x l1 IH]; simpl; [reflexivity|].
  destruct (p x); [reflexivity | exact IH].
Qed.

Lemma find_none_forallb {A} (p : A → bool) (l : list A) :
  forallb (λ x, negb (p x)) l = true → List.find p l = None.
Proof.
  induction l as [|x l IH]; simpl; [reflexivity|].
  destruct (p x); simpl; [discriminate | exact IH].
Qed.

(** An output of another family is not exported under [name]. *)
Lemma exports_as_family (name : string) (c : call) :
  export_family (exportName c) ≠ export_family name → exports_as name c = false.
Proof.
  intros Hfam. unfold exports_as.
  destruct (String.eqb (exportName c) name) eqn:E; [|apply andb_false_r].
  apply String.eqb_eq in E. congruence.
Qed.

Lemma find_export_other_family (name : string) (k : nat) (l : list call) :
  forallb (λ c, Nat.eqb (export_family (exportName c)) k) l = true →
  export_family name ≠ k →
  List.find (exports_as name) l = None.
Proof.
  intros Hall Hne. apply find_none_forallb.
  rewrite forallb_forall in *. intros c Hc.
  rewrite exports_as_family; [reflexivity|].
  apply Hall, Nat.eqb_eq in Hc. congruence.
Qed.

Lemma forallb_imap_gen {A B} (p : B → bool) (f : nat → A → B) (l : list A) :
  (∀ i x, p (f i x) = true) → forallb p (imap f l) = true.
Proof.
  revert f. induction l as [|x l IH]; intros f Hf; simpl; [reflexivity|].
  rewrite Hf. apply IH. intros i y. apply Hf.
Qed.

(** In a list built by [forEach], the element whose key is that of
    position [i] is the one built from the [i]-th element. *)
Lemma find_imap_at {A} (p : call → bool) (f : nat → A → call) (l : list A)
    (i : nat) (x : A) :
  (∀ j y, p (f j y) = true ↔ j = i) →
  l !! i = Some x → List.find p (imap f l) = Some (f i x).
Proof.
  revert f i. induction l as [|y l IH]; intros f i Hp Hi; [discriminate|].
  simpl. destruct i as [|i].
  - injection Hi as ->. rewrite (proj2 (Hp 0%nat x) eq_refl). reflexivity.
  - destruct (p (f 0%nat y)) eqn:E.
    + apply Hp in E. discriminate.
    + apply (IH (f ∘ S) i); [|exact Hi].
      intros j z. unfold compose. rewrite Hp. lia.
Qed.

Lemma find_imap_beyond {A} (p : call → bool) (f : nat → A → call) (l : list A) :
  (∀ j y, (j < length l)%nat → p (f j y) = false) → List.find p (imap f l) = None.
Proof.
  revert f. induction l as [|y l IH]; intros f Hp; simpl; [reflexivity|].
  rewrite Hp by (simpl; lia). apply IH. intros j z Hj. apply Hp. simpl. lia.
Qed.

Lemma exports_as_public (i j : nat) (y : Subnet) :
  exports_as (public_export i) (publicSubnetOutput networkPath y j) = true ↔ j = i.
Proof.
  unfold exports_as.
  change (is_output (publicSubnetOutput networkPath y j)) with true.
  change (exportName (publicSubnetOutput networkPath y j)) with (public_export j).
  cbn [andb]. rewrite String.eqb_eq. unfold public_export. split.
  - apply subnet_name_inj.
  - intros ->. reflexivity.
Qed.

Lemma exports_as_private (i j : nat) (y : Subnet) :
  exports_as (private_export i) (isolatedSubnetOutput networkPath y j) = true ↔ j = i.
Proof.
  unfold exports_as.
  change (is_output (isolatedSubnetOutput networkPath y j)) with true.
  change (exportName (isolatedSubnetOutput networkPath y j)) with (private_export j).
  cbn [andb]. rewrite String.eqb_eq. unfold private_export. split.
  - apply subnet_name_inj.
  - intros ->. reflexivity.
Qed.

Lemma fixed_export_families penv :
  forallb (λ c, Nat.eqb (export_family (exportName c)) 0) (before_loops penv) = true
  ∧ forallb (λ c, Nat.eqb (export_family (exportName c)) 0) (after_loops penv) = true.
Proof. abstract_env penv. vm_compute. split; reflexivity. Qed.

Lemma loop_export_families (pub iso : list Subnet) :
  forallb (λ c, Nat.eqb (export_family (exportName c)) 1)
          (imap (λ i x, publicSubnetOutput networkPath x i) pub) = true
  ∧ forallb (λ c, Nat.eqb (export_family (exportName c)) 2)
            (imap (λ i x, isolatedSubnetOutput networkPath x i) iso) = true.
Proof. split; apply forallb_imap_gen; reflexivity. Qed.

Lemma export_family_public i : export_family (public_export i) = 1%nat.
Proof. reflexivity. Qed.

Lemma export_family_private i : export_family (private_export i) = 2%nat.
Proof. reflexivity. Qed.

(** X3. The id of the public subnet at position [i] of the Vpc is exported
    under LabInfra-PublicSubnet<i+1>Id. *)
Theorem public_subnet_export penv pub iso (i : nat) (x : Subnet) :
  pub !! i = Some x →
  export_value (public_export i) (declared penv pub iso) = Some (VStr (subnetId x)).
Proof.
  intros Hi. unfold export_value. rewrite declared_split, !find_app_split.
  destruct (fixed_export_families penv) as [Hb _].
  rewrite (find_export_other_family _ 0 _ Hb)
    by (rewrite export_family_public; discriminate).
  rewrite (find_imap_at (exports_as (public_export i)) _ pub i x); [reflexivity| |exact Hi].
  intros j y. apply exports_as_public.
Qed.

Lemma public_subnet_export_witness :
  [public_a; public_c] !! 1%nat = Some public_c
  ∧ export_value "LabInfra-PublicSubnet2Id"
      (declared sample_env_dev [public_a; public_c] [isolated_a]) = Some (VStr "subnet-0c12").
Proof.
  split; [reflexivity|].
  apply (public_subnet_export sample_env_dev [public_a; public_c] [isolated_a] 1 public_c).
  reflexivity.
Defined.

(** X4. The id of the isolated subnet at position [i] of the Vpc is
    exported under LabInfra-PrivateSubnet<i+1>Id. *)
Theorem isolated_subnet_export penv pub iso (i : nat) (x : Subnet) :
  iso !! i = Some x →
  export_value (private_export i) (declared penv pub iso) = Some (VStr (subnetId x)).
Proof.
  intros Hi. unfold export_value. rewrite declared_split, !find_app_split.
  destruct (fixed_export_families penv) as [Hb _].
  destruct (loop_export_families pub iso) as [Hp _].
  rewrite (find_export_other_family _ 0 _ Hb)
    by (rewrite export_family_private; discriminate).
  rewrite (find_export_other_family _ 1 _ Hp)
    by (rewrite export_family_private; discriminate).
  rewrite (find_imap_at (exports_as (private_export i)) _ iso i x); [reflexivity| |exact Hi].
  intros j y. apply exports_as_private.
Qed.

Lemma isolated_subnet_export_witness :
  [isolated_a; isolated_c] !! 0%nat = Some isolated_a
  ∧ export_value "LabInfra-PrivateSubnet1Id"
      (declared sample_env_dev [public_a] [isolated_a; isolated_c])
    = Some (VStr "subnet-0a21").
Proof.
  split; [reflexivity|].
  apply (isolated_subnet_export sample_env_dev [public_a] [isolated_a; isolated_c] 0
           isolated_a).
  reflexivity.
Defined.

(** X5. Nothing is exported for a subnet the Vpc does not have: beyond the
    last public subnet there is no LabInfra-PublicSubnet<i+1>Id, and
    beyond the last isolated subnet no LabInfra-PrivateSubnet<j+1>Id. *)
Theorem no_export_beyond_subnets penv pub iso (i j : nat) :
  (length pub ≤ i)%nat → (length iso ≤ j)%nat →
  export_value (public_export i) (declared penv pub iso) = None
  ∧ export_value (private_export j) (declared penv pub iso) = None.
Proof.
  intros Hi Hj. unfold export_value. rewrite declared_split, !find_app_split.
  destruct (fixed_export_families penv) as [Hb Ha].
  destruct (loop_export_families pub iso) as [Hp Hq].
  split.
  - rewrite (find_export_other_family _ 0 _ Hb)
      by (rewrite export_family_public; discriminate).
    rewrite (find_imap_beyond (exports_as (public_export i)) _ pub).
    + rewrite (find_export_other_family _ 2 _ Hq)
        by (rewrite export_family_public; discriminate).
      rewrite (find_export_other_family _ 0 _ Ha)
        by (rewrite export_family_public; discriminate).
      reflexivity.
    + intros k y Hk. destruct (exports_as _ _) eqn:E; [|reflexivity].
      apply exports_as_public in E. lia.
  - rewrite (find_export_other_family _ 0 _ Hb)
      by (rewrite export_family_private; discriminate).
    rewrite (find_export_other_family _ 1 _ Hp)
      by (rewrite export_family_private; discriminate).
    rewrite (find_imap_beyond (exports_as (private_export j)) _ iso).
    + rewrite (find_export_other_family _ 0 _ Ha)
        by (rewrite export_family_private; discriminate).
      reflexivity.
    + intros k y Hk. destruct (exports_as _ _) eqn:E; [|reflexivity].
      apply exports_as_private in E. lia.
Qed.

Lemma no_export_beyond_subnets_witness :
  (length [public_a; public_c] ≤ 2)%nat ∧ (length [isolated_a] ≤ 1)%nat
  ∧ export_value "LabInfra-PublicSubnet3Id"
      (declared sample_env_dev [public_a; public_c] [isolated_a]) = None
  ∧ export_value "LabInfra-PrivateSubnet2Id"
      (declared sample_env_dev [public_a; public_c] [isolated_a]) = None.
Proof.
  split; [simpl; lia|]. split; [simpl; lia|].
  apply (no_export_beyond_subnets sample_env_dev [public_a; public_c] [isolated_a] 2 1);
    simpl; lia.
Defined.

Lemma map_imap_ext {A B} (g : call → B) (f : nat → A → call) (l : list A) :
  map g (imap f l) = imap (λ i x, g (f i x)) l.
Proof.
  revert f. induction l as [|x l IH]; intros f; simpl; [reflexivity|].
  f_equal. apply IH.
Qed.

(** X6. For the same subnets reported by the framework's Vpc, the
    environment reaches the calls only through the [env] property of the
    three stacks.  With that property removed, the calls are the fixed
    calls made in an empty environment, with the outputs of the subnets
    in between: nothing else in any call depends on the environment, and
    the subnets enter only their own outputs.  (Which subnets the Vpc
    reports is the framework's answer and may itself depend on the [env]
    it was handed.) *)
Theorem environment_reaches_only_env penv1 penv2 pub iso :
  map without_env (declared penv1 pub iso) = map without_env (declared penv2 pub iso)
  ∧ map without_env (declared penv1 pub iso)
    = map without_env (before_loops ∅)
      ++ imap (λ i x, publicSubnetOutput networkPath x i) pub
      ++ imap (λ i x, isolatedSubnetOutput networkPath x i) iso
      ++ map without_env (after_loops ∅).
Proof.
  assert (∀ penv, map without_env (declared penv pub iso)
                  = map without_env (before_loops ∅)
                    ++ imap (λ i x, publicSubnetOutput networkPath x i) pub
                    ++ imap (λ i x, isolatedSubnetOutput networkPath x i) iso
                    ++ map without_env (after_loops ∅)) as H.
  { intros penv. rewrite !declared_split, !map_app, !map_imap_ext.
    assert (map without_env (before_loops penv) = map without_env (before_loops ∅)) as ->
      by (abstract_env penv; vm_compute; reflexivity).
    assert (map without_env (after_loops penv) = map without_env (after_loops ∅)) as ->
      by (abstract_env penv; vm_compute; reflexivity).
    reflexivity. }
  split; [rewrite (H penv1), (H penv2); reflexivity | apply H].
Qed.

Example without_env_keeps_other_props :
  without_env (Construct "cdk.Stack" [] "S"
                 (VObj [("env", VStr "e"); ("description", VStr "d")]))
  = Construct "cdk.Stack" [] "S" (VObj [("description", VStr "d")])
  ∧ without_env (Construct "s3.Bucket" ["S"] "B" (VObj [("env", VStr "e")]))
    = Construct "s3.Bucket" ["S"] "B" (VObj [("env", VStr "e")]).
Proof. split; reflexivity. Qed.

(** X7. Each of the three stacks receives a region that is a non-empty
    string, whatever the environment holds. *)
Theorem region_never_empty penv pub iso :
  Forall (λ v, ∃ s, v = VStr s ∧ s ≠ EmptyString) (region_params (declared penv pub iso))
  ∧ length (region_params (declared penv pub iso)) = 3%nat.
Proof.
  unfold region_params. rewrite declared_stack_envs. cbn [replicate map field lookup_field].
  split; [|reflexivity].
  assert (∃ s, VStr match penv !! "CDK_DEFAULT_REGION" with
                    | Some s => if String.eqb s EmptyString then "ap-northeast-1" else s
                    | None => "ap-northeast-1"
                    end = VStr s ∧ s ≠ EmptyString) as H.
  { destruct (penv !! "CDK_DEFAULT_REGION") as [s|].
    - destruct (String.eqb s EmptyString) eqn:E.
      + eexists. split; [reflexivity | discriminate].
      + exists s. split; [reflexivity|]. apply String.eqb_neq, E.
    - eexists. split; [reflexivity | discriminate]. }
  repeat constructor; exact H.
Qed.

Lemma imap_ext_length {A B} (f g : nat → A → B) (l l2 : list A) :
  (∀ i x y, f i x = g i y) → length l = length l2 → imap f l = imap g l2.
Proof.
  revert f g l2. induction l as [|x l IH]; intros f g [|y l2] Hfg Hlen; try discriminate.
  - reflexivity.
  - simpl. f_equal; [apply Hfg|]. apply IH; [intros; apply Hfg | simpl in Hlen; lia].
Qed.

(** X8. What is called (class, method and construct id of every call, in
    order) depends only on how many public and how many isolated subnets
    the Vpc has, not on their ids or zones nor on the environment. *)
Theorem calls_depend_on_subnet_counts penv1 penv2 pub1 pub2 iso1 iso2 :
  length pub1 = length pub2 → length iso1 = length iso2 →
  map shape (declared penv1 pub1 iso1) = map shape (declared penv2 pub2 iso2).
Proof.
  intros Hp Hi. rewrite !declared_split, !map_app, !map_imap_ext.
  assert (∀ penv, map shape (before_loops penv) = map shape (before_loops ∅)) as Hb
    by (intros penv; abstract_env penv; vm_compute; reflexivity).
  assert (∀ penv, map shape (after_loops penv) = map shape (after_loops ∅)) as Ha
    by (intros penv; abstract_env penv; vm_compute; reflexivity).
  rewrite (Hb penv1), (Hb penv2), (Ha penv1), (Ha penv2).
  rewrite (imap_ext_length _ (λ i x, shape (publicSubnetOutput networkPath x i)) pub1 pub2)
    by (reflexivity || exact Hp).
  rewrite (imap_ext_length _ (λ i x, shape (isolatedSubnetOutput networkPath x i)) iso1 iso2)
    by (reflexivity || exact Hi).
  reflexivity.
Qed.

Lemma calls_depend_on_subnet_counts_witness :
  length [public_a; public_c] = length [public_c; public_a]
  ∧ length [isolated_a] = length [isolated_c]
  ∧ map shape (declared sample_env_dev [public_a; public_c] [isolated_a])
    = map shape (declared sample_env_empty_region [public_c; public_a] [isolated_c]).
Proof.
  split; [reflexivity|]. split; [reflexivity|].
  apply (calls_depend_on_subnet_counts sample_env_dev sample_env_empty_region
           [public_a; public_c] [public_c; public_a] [isolated_a] [isolated_c]);
    reflexivity.
Defined.

Lemma completed_forallb (ok : list call → call → bool) (p : call → bool)
    (served t : list call) :
  forallb p t = true → forallb p (completed ok served t) = true.
Proof.
  revert served. induction t as [|c t IH]; intros served; simpl; [reflexivity|].
  rewrite andb_true_iff. intros [Hc Ht].
  destruct (ok served c); simpl; [|reflexivity].
  rewrite Hc. apply IH, Ht.
Qed.

Lemma filter_completed_nil (ok : list call → call → bool) (q : call → bool)
    (served t : list call) :
  List.filter q t = [] → List.filter q (completed ok served t) = [].
Proof.
  revert served. induction t as [|c t IH]; intros served; simpl; [reflexivity|].
  destruct (q c) eqn:E; [discriminate|]. intros Ht.
  destruct (ok served c); simpl; [|reflexivity].
  rewrite E. apply IH, Ht.
Qed.

(** If a call marked by [p] completed and no call of [A] is marked, then
    all of [A] completed; what is filtered out of [B] is then filtered
    out of the completed calls too. *)
Lemma completed_past (ok : list call → call → bool) (p q : call → bool)
    (A B : list call) :
  forallb (λ c, negb (p c)) A = true →
  List.filter q B = [] →
  existsb p (completed ok [] (A ++ B)) = true →
  List.filter q (completed ok [] (A ++ B)) = List.filter q (A ++ B).
Proof.
  intros HA HB Hex. rewrite completed_app in *.
  destruct (rejected ok [] A) as [c|].
  - apply (completed_forallb ok _ [] A) in HA.
    exfalso. revert Hex HA. generalize (completed ok [] A). intros l.
    induction l as [|x l IH]; simpl; [discriminate|].
    destruct (p x); simpl; [discriminate | exact IH].
  - rewrite !List.filter_app, HB, (filter_completed_nil ok q _ B HB). reflexivity.
Qed.

Lemma existsb_is_stack (id : string) (t : list call) :
  In id (stacks t) → existsb (is_stack id) t = true.
Proof.
  unfold stacks, constructs. rewrite in_map_iff.
  intros (c & <- & Hc). apply filter_In in Hc as [Hin Hc].
  apply existsb_exists. exists c. split; [exact Hin|].
  unfold is_stack. rewrite Hc, String.eqb_refl. reflexivity.
Qed.

(** The calls up to the end of the network stack, and up to the end of the
    Fargate stack. *)
Lemma fargate_stack_position penv :
  forallb (λ c, negb (is_stack "LabInfraFargateServiceStack" c)) (before_loops penv) = true
  ∧ List.filter (λ c, in_scope networkPath c && is_output c) (after_loops penv) = []
  ∧ forallb (λ c, negb (is_stack "LabInfraPipelineStack" c))
            (before_loops penv) = true
  ∧ forallb (λ c, negb (is_stack "LabInfraPipelineStack" c))
            (firstn 26 (after_loops penv)) = true
  ∧ List.filter (λ c, in_scope fargatePath c && is_output c)
                (skipn 26 (after_loops penv)) = [].
Proof. abstract_env penv. vm_compute. repeat split; reflexivity. Qed.

Lemma run_completes_prefix penv fw :
  snd (lab_infra penv fw [])
  = completed (accepts fw) [] (declared penv (publicSubnets fw) (isolatedSubnets fw)).
Proof.
  destruct fw as [ok pub iso]. cbn [accepts publicSubnets isolatedSubnets].
  destruct (lab_infra_replay penv ok pub iso) as (r & ->). reflexivity.
Qed.

Lemma loops_hold_no_stack (id : string) (pub iso : list Subnet) :
  forallb (λ c, negb (is_stack id c))
          (imap (λ i x, publicSubnetOutput networkPath x i) pub) = true
  ∧ forallb (λ c, negb (is_stack id c))
            (imap (λ i x, isolatedSubnetOutput networkPath x i) iso) = true.
Proof. split; apply forallb_imap; reflexivity. Qed.

(** X9. The stacks are built one after the other, against any framework:
    once the Fargate stack has been started, every output of the network
    stack has been made; once the pipeline stack has been started, every
    output of the Fargate stack has been made. *)
Theorem stacks_built_in_order penv fw :
  let t := declared penv (publicSubnets fw) (isolatedSubnets fw) in
  let done := snd (lab_infra penv fw []) in
  (In "LabInfraFargateServiceStack" (stacks done) →
   outputs networkPath done = outputs networkPath t)
  ∧ (In "LabInfraPipelineStack" (stacks done) →
     outputs fargatePath done = outputs fargatePath t).
Proof.
  intros t done. subst t done. rewrite run_completes_prefix.
  set (pub := publicSubnets fw). set (iso := isolatedSubnets fw).
  destruct (fargate_stack_position penv) as (H1 & H2 & H3 & H4 & H5).
  rewrite declared_split. unfold outputs.
  set (P := imap (λ i x, publicSubnetOutput networkPath x i) pub).
  set (I := imap (λ i x, isolatedSubnetOutput networkPath x i) iso).
  split; intros Hin; f_equal; apply existsb_is_stack in Hin.
  - destruct (loops_hold_no_stack "LabInfraFargateServiceStack" pub iso) as [HP HI].
    replace (before_loops penv ++ P ++ I ++ after_loops penv)
      with ((before_loops penv ++ P ++ I) ++ after_loops penv) in *
      by (rewrite <- !app_assoc; reflexivity).
    apply (completed_past _ (is_stack "LabInfraFargateServiceStack")); try assumption.
    rewrite !forallb_app, H1. unfold P, I. rewrite HP, HI. reflexivity.
  - destruct (loops_hold_no_stack "LabInfraPipelineStack" pub iso) as [HP HI].
    replace (before_loops penv ++ P ++ I ++ after_loops penv)
      with ((before_loops penv ++ P ++ I ++ firstn 26 (after_loops penv))
            ++ skipn 26 (after_loops penv)) in *
      by (rewrite <- !app_assoc, firstn_skipn; reflexivity).
    apply (completed_past _ (is_stack "LabInfraPipelineStack")); try assumption.
    rewrite !forallb_app, H3, H4. unfold P, I. rewrite HP, HI. reflexivity.
Qed.

Lemma stacks_built_in_order_witness :
  In "LabInfraPipelineStack"
     (stacks (snd (lab_infra ∅ (rejecting "codebuild.Project" [public_a] [isolated_a]) [])))
  ∧ stacks (snd (lab_infra ∅ (rejecting "codebuild.Project" [public_a] [isolated_a]) []))
    = ["LabInfraNetworkStack"; "LabInfraFargateServiceStack"; "LabInfraPipelineStack"]
  ∧ outputs pipelinePath
      (snd (lab_infra ∅ (rejecting "codebuild.Project" [public_a] [isolated_a]) [])) = []
  ∧ outputs fargatePath
      (snd (lab_infra ∅ (rejecting "codebuild.Project" [public_a] [isolated_a]) []))
    = outputs fargatePath (declared ∅ [public_a] [isolated_a]).
Proof.
  assert (In "LabInfraPipelineStack"
     (stacks (snd (lab_infra ∅ (rejecting "codebuild.Project" [public_a] [isolated_a]) []))))
    as Hin.
  { apply list_elem_of_In. apply (bool_decide_unpack _). vm_compute. reflexivity. }
  split; [exact Hin|].
  split; [vm_compute; reflexivity|].
  split; [vm_compute; reflexivity|].
  exact (proj2 (stacks_built_in_order ∅
                  (rejecting "codebuild.Project" [public_a] [isolated_a])) Hin).
Defined.

(** X10. The pipeline has the stages Source, Build and Deploy, in this
    order.  Source reads no artifact and writes SourceOutput; Build reads
    SourceOutput and writes BuildOutput; both actions of Deploy take
    their template from BuildOutput and write nothing.  So every action
    reads only artifacts written by an earlier stage. *)
Theorem pipeline_artifacts_flow penv pub iso :
  let t := declared penv pub iso in
  map (λ s, str_of (field "stageName" s)) (stages t) = ["Source"; "Build"; "Deploy"]
  ∧ map (λ s, length (flat_map action_inputs (items (field "actions" s)))) (stages t)
    = [0; 1; 2]%nat
  ∧ artifacts_flow [] (stages t) = true
  ∧ map stage_reads (stages t)
    = [ []; [Some "SourceOutput"]; [Some "BuildOutput"; Some "BuildOutput"] ]
  ∧ map stage_writes (stages t)
    = [ [Some "SourceOutput"]; [Some "BuildOutput"]; [] ]
  ∧ map (λ s, map (λ a, str_of (field "actionName" (new_arg a)))
                  (items (field "actions" s))) (stages t)
    = [ ["S3Source"]; ["CDKSynth"]; ["DeployNetworkStack"; "DeployFargateServiceStack"] ].
Proof.
  intros t. subst t. rewrite declared_split. unfold stages. drop_loops pub iso.
  abstract_env penv. vm_compute. repeat split; reflexivity.
Qed.

Example artifacts_flow_rejects :
  artifacts_flow []
    [ VObj [("stageName", VStr "Build");
            ("actions", VArr [VNew "codepipeline_actions.CodeBuildAction"
                                [VObj [("input", VNew "codepipeline.Artifact" [VStr "S"])]]])] ]
  = false.
Proof. reflexivity. Qed.

(** X11. Both S3 buckets block all public access, are encrypted and
    versioned, and are removed with their stack together with their
    objects; the log group is removed with its stack too. *)
Theorem storage_private_and_disposable penv pub iso :
  let t := declared penv pub iso in
  map id_of (constructs "s3.Bucket" t) = ["LabInfraSourceBucket"; "LabInfraArtifactBucket"]
  ∧ forallb (λ c, bucket_locked_down (props_of c) && destroyed_with_stack (props_of c))
            (constructs "s3.Bucket" t) = true
  ∧ prop_values "s3.Bucket" "autoDeleteObjects" t = [VBool true; VBool true]
  ∧ map id_of (constructs "logs.LogGroup" t) = ["LabInfraLogGroup"]
  ∧ forallb (λ c, destroyed_with_stack (props_of c)) (constructs "logs.LogGroup" t) = true.
Proof.
  intros t. subst t. rewrite declared_split. unfold prop_values, constructs.
  drop_loops pub iso.
  abstract_env penv. vm_compute. repeat split; reflexivity.
Qed.

(** X12. Every output is exported under LabInfra- followed by its own
    construct id, the outputs made in the loops included. *)
Theorem export_name_follows_id penv pub iso :
  Forall (λ c, exportName c = "LabInfra-" +:+ id_of c)
         (constructs "cdk.CfnOutput" (declared penv pub iso)).
Proof.
  rewrite declared_split. unfold constructs. rewrite !List.filter_app.
  rewrite !(filter_imap_all (is_construct "cdk.CfnOutput")) by reflexivity.
  rewrite !Forall_app. repeat split.
  - abstract_env penv. apply (bool_decide_unpack _). vm_compute. reflexivity.
  - apply Forall_imap. reflexivity.
  - apply Forall_imap. reflexivity.
  - abstract_env penv. apply (bool_decide_unpack _). vm_compute. reflexivity.
Qed.

(** X13. The Fargate service is wired to the constructs of its own
    deployment: its cluster and its security group are built in the Vpc
    of the network stack, and the service uses that cluster, that
    security group and the one task definition. *)
Theorem service_wiring penv pub iso :
  let t := declared penv pub iso in
  let vpc := VConstruct (networkPath ++ ["LabInfraVpc"]) in
  map result_of (constructs "ec2.Vpc" t) = [vpc]
  ∧ prop_values "ecs.Cluster" "vpc" t = [vpc]
  ∧ prop_values "ec2.SecurityGroup" "vpc" t = [vpc]
  ∧ prop_values "ecs.FargateService" "cluster" t = map result_of (constructs "ecs.Cluster" t)
  ∧ prop_values "ecs.FargateService" "taskDefinition" t
    = map result_of (constructs "ecs.FargateTaskDefinition" t)
  ∧ prop_values "ecs.FargateService" "securityGroups" t
    = [VArr (map result_of (constructs "ec2.SecurityGroup" t))]
  ∧ length (constructs "ecs.FargateService" t) = 1%nat.
Proof.
  intros t vpc. subst t vpc. rewrite declared_split. unfold prop_values, constructs.
  drop_loops pub iso.
  abstract_env penv. vm_compute. repeat split; reflexivity.
Qed.
